(** * xai-telegram: the Telegram adapter components, embedded in Rocq

    A shallow embedding of [telegram_core_components.py].  Each component's
    [execute] method, and each callback it installs, is a function in a small
    state-and-exception monad over a [World] that records what the Python
    code can change or request from the outside:

    - the wrapped library's [Application] objects, held by reference, so that
      "the same object" is "the same reference";
    - the calls made into python-telegram-bot, the host and asyncio, in the
      order they are made (the [trace]);
    - the tasks pending on the asyncio event loop.

    An exception keeps the world reached so far, as in Python: what was done
    before a [raise] stays done. *)

From Stdlib Require Import ZArith NArith List String Ascii Bool Lia.
From stdpp Require Import base option gmap strings list fin_maps.
Import ListNotations.

Local Open Scope string_scope.
Local Open Scope list_scope.

(* ===================================================================== *)
(** ** Python values seen by the components *)
(* ===================================================================== *)

(** The wrapped library's objects, as far as the components read them.
    [effective_chat], [effective_user], [effective_message] and [message]
    are attributes that the library documents as optional. *)
Module telegram.

Record Chat := mkChat { chat_ident : Z }.

Record User := mkUser { user_ident : Z; first_name : option string }.

Record Message := mkMessage { message_id : Z; text : option string }.

Record Update := mkUpdate {
  update_id : Z;
  message : option Message;
  effective_message : option Message;
  effective_chat : option Chat;
  effective_user : option User
}.

End telegram.
Import telegram.

(** Values that travel in an event payload. *)
Inductive PyVal :=
| VNone
| VInt (z : Z)
| VStr (s : string)
| VUpdate (u : Update).

(** A Python [dict] with string keys. *)
Abbreviation Dict := (gmap string PyVal).

Inductive Exn :=
| ValueError (msg : string)
| AttributeError (type_name attr : string)
| NetworkError.

(** An [Application] is handled by reference. *)
Definition AppRef := nat.

(** ** Truthiness *)

Class Truthy (A : Type) := truthy : A -> bool.

#[global] Instance truthy_string : Truthy string :=
  fun s => match s with EmptyString => false | String _ _ => true end.

(** [None] is falsy; an object that is present follows its own rule. *)
#[global] Instance truthy_option {A} `{Truthy A} : Truthy (option A) :=
  fun o => match o with None => false | Some a => truthy a end.

(** Library objects define neither [__bool__] nor [__len__]. *)
#[global] Instance truthy_appref : Truthy AppRef := fun _ => true.
#[global] Instance truthy_chat : Truthy Chat := fun _ => true.
#[global] Instance truthy_user : Truthy User := fun _ => true.
#[global] Instance truthy_message : Truthy Message := fun _ => true.
#[global] Instance truthy_update : Truthy Update := fun _ => true.

#[global] Instance truthy_list {A} : Truthy (list A) :=
  fun l => match l with [] => false | _ :: _ => true end.

#[global] Instance truthy_dict : Truthy Dict :=
  fun d => negb (bool_decide (d = ∅)).

#[global] Instance truthy_pyval : Truthy PyVal :=
  fun v => match v with
           | VNone => false
           | VInt z => negb (z =? 0)%Z
           | VStr s => truthy s
           | VUpdate u => truthy u
           end.

(** ** [str.strip()] and [str.join] *)

(** The code points for which [str.isspace()] is true: the ASCII controls
    and the space, NEL, the no-break space, and the Unicode spaces and line
    and paragraph separators. *)
Definition whitespace_code_points : list N :=
  [0x9; 0xA; 0xB; 0xC; 0xD; 0x1C; 0x1D; 0x1E; 0x1F; 0x20; 0x85; 0xA0; 0x1680;
   0x2000; 0x2001; 0x2002; 0x2003; 0x2004; 0x2005; 0x2006; 0x2007; 0x2008; 0x2009; 0x200A;
   0x2028; 0x2029; 0x202F; 0x205F; 0x3000]%N.

(** Text is held as its UTF-8 bytes; [utf8] encodes one code point of the
    basic plane. *)
Definition utf8 (cp : N) : string :=
  (if cp <? 0x80 then
     String (ascii_of_N cp) EmptyString
   else if cp <? 0x800 then
     String (ascii_of_N (0xC0 + cp / 0x40))
       (String (ascii_of_N (0x80 + cp mod 0x40)) EmptyString)
   else
     String (ascii_of_N (0xE0 + cp / 0x1000))
       (String (ascii_of_N (0x80 + (cp / 0x40) mod 0x40))
          (String (ascii_of_N (0x80 + cp mod 0x40)) EmptyString)))%N.

(** The whitespace characters, each as the bytes that encode it. *)
Definition python_whitespace : list string :=
  Eval vm_compute in List.map utf8 whitespace_code_points.

(** [x.isspace()] for the bytes [x] of one character. *)
Definition is_space (x : string) : bool := existsb (String.eqb x) python_whitespace.

(** The text after one whitespace character at the front, if there is
    one.  A whitespace character takes one, two or three bytes. *)
Definition skip_space (s : string) : option string :=
  match s with
  | EmptyString => None
  | String a r1 =>
      if is_space (String a EmptyString) then Some r1 else
      match r1 with
      | EmptyString => None
      | String b r2 =>
          if is_space (String a (String b EmptyString)) then Some r2 else
          match r2 with
          | EmptyString => None
          | String c r3 =>
              if is_space (String a (String b (String c EmptyString))) then Some r3
              else None
          end
      end
  end.

Fixpoint lstrip (s : string) : string :=
  match s with
  | EmptyString => EmptyString
  | String a r1 =>
      if is_space (String a EmptyString) then lstrip r1 else
      match r1 with
      | EmptyString => s
      | String b r2 =>
          if is_space (String a (String b EmptyString)) then lstrip r2 else
          match r2 with
          | EmptyString => s
          | String c r3 =>
              if is_space (String a (String b (String c EmptyString))) then lstrip r3
              else s
          end
      end
  end.

(** Made of whitespace characters only. *)
Definition all_space (s : string) : bool :=
  match lstrip s with
  | EmptyString => true
  | String _ _ => false
  end.

Fixpoint rstrip (s : string) : string :=
  match s with
  | EmptyString => EmptyString
  | String a r => if all_space s then EmptyString else String a (rstrip r)
  end.

Definition strip (s : string) : string := rstrip (lstrip s).

(** [sep.join(l)] *)
Definition join (sep : string) (l : list string) : string := String.concat sep l.

(* ===================================================================== *)
(** ** The world outside the components *)
(* ===================================================================== *)

(** [filters.TEXT & (~filters.COMMAND)] is kept as syntax. *)
Inductive Filter :=
| TEXT
| COMMAND
| FAnd (f g : Filter)
| FNot (f : Filter).

(** The two closures the components create.  [command_callback] captures
    [cmd] and [evt]; it also captures the host context [ctx], which is a
    shared object and is therefore read from the world when the callback
    runs. *)
Inductive Callback :=
| EchoClosure
| CommandClosure (cmd evt : string).

Inductive Handler :=
| MessageHandler (f : Filter) (cb : Callback)
| CommandHandler (command : string) (cb : Callback).

Inductive ParseMode := HTML | MARKDOWN.

(** The keyword arguments of [bot.send_message]; an argument that is not
    passed is [None]. *)
Record SendArgs := mkSend {
  via_bot : AppRef;
  to_chat_id : Z;
  with_text : option string;
  parse_mode : option ParseMode;
  reply_to_message_id : option Z
}.

(** The coroutine object made by calling [_send_reply()]: the variables it
    closes over. *)
Record Coroutine := mkSendReply {
  co_app : option AppRef;
  co_chat_id : Z;
  co_reply_text : option string;
  co_message_id : Z
}.

(** A host [OnEvent] listener.  [body_raises] is what running its sub-graph
    does: [None] when it returns, [Some e] when it raises [e]. *)
Record Listener := mkListener {
  listener_id : nat;
  body_raises : option Exn
}.

(** The host context: [ctx['events'][event_name]] is a list of listeners. *)
Abbreviation Events := (gmap string (list Listener)).
Abbreviation Ctx := (gmap string Events).

Inductive Event :=
| LibBuild (token : option string)
| LibMessageHandler (f : Filter) (cb : Callback)
| LibCommandHandler (command : string) (cb : Callback)
| LibAddHandler (app : AppRef) (h : Handler)
| LibRunPolling (app : AppRef)
| LibSendMessage (a : SendArgs)
| LoopCreateTask (co : Coroutine)
| Print (line : string)
| HostSetPayload (l : Listener) (payload : Dict)
| HostDo (l : Listener).

(** A call into python-telegram-bot. *)
Definition is_lib_call (e : Event) : bool :=
  match e with
  | LibBuild _ | LibMessageHandler _ _ | LibCommandHandler _ _
  | LibAddHandler _ _ | LibRunPolling _ | LibSendMessage _ => true
  | LoopCreateTask _ | Print _ | HostSetPayload _ _ | HostDo _ => false
  end.

(** What the installed python-telegram-bot decides on its own.  Its code is
    not part of this repository, so these decisions are left open: whether
    [CommandHandler(command, ...)] accepts the command, and if not the
    message of the ValueError it raises; which updates [filters.TEXT] and
    [filters.COMMAND] accept; and how [run_polling()] ends, by returning
    when the bot is stopped or by raising. *)
Record Library := mkLibrary {
  command_rejection : string -> option string;
  text_filter : Update -> bool;
  command_filter : Update -> bool;
  polling_error : AppRef -> option Exn
}.

Record World := mkWorld {
  apps : gmap AppRef (list Handler);  (* the handlers of each Application *)
  next_app : AppRef;                  (* the next fresh reference *)
  trace : list Event;                 (* oldest first *)
  loop_tasks : list Coroutine;        (* scheduled, not yet run *)
  bot_online : bool;                  (* whether a send reaches Telegram *)
  library : Library                   (* the library's own decisions *)
}.

Definition lib_calls (w : World) : list Event := List.filter is_lib_call (trace w).

(** The handlers attached to an application, in the order they were added. *)
Definition handlers_of (w : World) (r : AppRef) : list Handler :=
  default [] (apps w !! r).

(** ** The monad *)

Inductive Outcome (A : Type) :=
| Returned (a : A)
| Raised (e : Exn).
Arguments Returned {A} a.
Arguments Raised {A} e.

Definition M (A : Type) : Type := World -> Outcome A * World.

Definition ret {A} (a : A) : M A := fun w => (Returned a, w).

Definition bind {A B} (m : M A) (k : A -> M B) : M B :=
  fun w => match m w with
           | (Returned a, w') => k a w'
           | (Raised e, w') => (Raised e, w')
           end.

Definition raise {A} (e : Exn) : M A := fun w => (Raised e, w).

Declare Scope py_scope.
Delimit Scope py_scope with py.
Notation "x <- m ;; k" := (bind m (fun x => k))
  (at level 100, m at next level, right associativity) : py_scope.
Notation "m ;; k" := (bind m (fun _ => k))
  (at level 100, right associativity) : py_scope.
Local Open Scope py_scope.

Definition emit (e : Event) : M unit :=
  fun w => (Returned tt,
            mkWorld (apps w) (next_app w) (trace w ++ [e]) (loop_tasks w)
                    (bot_online w) (library w)).

(** [x.attr] where [x] may be [None]. *)
Definition getattr {A} (x : option A) (attr : string) : M A :=
  match x with
  | Some a => ret a
  | None => raise (AttributeError "NoneType" attr)
  end.

(** *** The wrapped library *)

(** [ApplicationBuilder().token(token).build()]: a new Application with no
    handlers. *)
Definition ApplicationBuilder_build (token : option string) : M AppRef :=
  fun w =>
    let r := next_app w in
    (Returned r,
     mkWorld (<[r := []]> (apps w)) (S r) (trace w ++ [LibBuild token])
             (loop_tasks w) (bot_online w) (library w)).

Definition new_MessageHandler (f : Filter) (cb : Callback) : M Handler :=
  emit (LibMessageHandler f cb) ;; ret (MessageHandler f cb).

(** [CommandHandler(command, cb)]: the constructor checks the command and
    raises ValueError for one it does not accept. *)
Definition new_CommandHandler (command : string) (cb : Callback) : M Handler :=
  emit (LibCommandHandler command cb) ;;
  fun w => match command_rejection (library w) command with
           | None => (Returned (CommandHandler command cb), w)
           | Some msg => (Raised (ValueError msg), w)
           end.

(** [app.add_handler(h)] appends [h] to the handlers of the object [app]. *)
Definition add_handler (app : option AppRef) (h : Handler) : M unit :=
  r <- getattr app "add_handler" ;;
  fun w =>
    (Returned tt,
     mkWorld (<[r := handlers_of w r ++ [h]]> (apps w)) (next_app w)
             (trace w ++ [LibAddHandler r h]) (loop_tasks w) (bot_online w) (library w)).

(** [app.run_polling()] blocks until the bot is stopped; it returns then,
    or raises what stopped it. *)
Definition run_polling (app : AppRef) : M unit :=
  emit (LibRunPolling app) ;;
  fun w => match polling_error (library w) app with
           | None => (Returned tt, w)
           | Some e => (Raised e, w)
           end.

(** [await bot.send_message(...)]: the request is made; it fails when the
    bot cannot reach Telegram. *)
Definition send_message (a : SendArgs) : M unit :=
  emit (LibSendMessage a) ;;
  fun w => if bot_online w then (Returned tt, w) else (Raised NetworkError, w).

(** *** asyncio and the console *)

(** [asyncio.get_event_loop().create_task(co)] queues the coroutine and
    returns; the coroutine body runs only when the loop takes the task. *)
Definition create_task (co : Coroutine) : M unit :=
  fun w =>
    (Returned tt,
     mkWorld (apps w) (next_app w) (trace w ++ [LoopCreateTask co])
             (loop_tasks w ++ [co]) (bot_online w) (library w)).

Definition print (line : string) : M unit := emit (Print line).

(** *** The host *)

(** [listener.payload.value = payload] *)
Definition set_payload (l : Listener) (payload : Dict) : M unit :=
  emit (HostSetPayload l payload).

(** [SubGraphExecutor(listener).do(ctx)] *)
Definition SubGraphExecutor_do (l : Listener) : M unit :=
  emit (HostDo l) ;;
  match body_raises l with
  | None => ret tt
  | Some e => raise e
  end.

(** ** Small Python idioms *)

(** [for x in l: body(x)] *)
Fixpoint for_each {A} (l : list A) (body : A -> M unit) : M unit :=
  match l with
  | [] => ret tt
  | x :: rest => body x ;; for_each rest body
  end.

(** [x or d] *)
Definition or_else {A} `{Truthy A} (x : option A) (d : A) : A :=
  match x with
  | Some a => if truthy a then a else d
  | None => d
  end.

(** [d.get(k)], with the default [None] *)
Definition dict_get (d : Dict) (k : string) : PyVal := default VNone (d !! k).

Definition type_name_of (v : PyVal) : string :=
  match v with
  | VNone => "NoneType"
  | VInt _ => "int"
  | VStr _ => "str"
  | VUpdate _ => "Update"
  end.

(** [v.attr] for an attribute of [Update]: only an Update has it. *)
Definition update_attr {A} (v : PyVal) (attr : string) (field : Update -> A) : M A :=
  match v with
  | VUpdate u => ret (field u)
  | _ => raise (AttributeError (type_name_of v) attr)
  end.

(** What the handler passes to a callback as [context]. *)
Record CallbackContext := mkContext {
  bot : AppRef;
  args : option (list string)
}.

(* ===================================================================== *)
(** ** The components *)
(* ===================================================================== *)

Module TelegramInitApp.

Record Ports := mkPorts {
  telegram_token : option string;
  application : option AppRef
}.

Definition execute (self : Ports) (ctx : Ctx) : M Ports :=
  let token := telegram_token self in
  if negb (truthy token) then
    raise (ValueError "No Telegram token provided!")
  else
    app <- ApplicationBuilder_build token ;;
    ret (mkPorts (telegram_token self) (Some app)).

End TelegramInitApp.

(** The callback [echo] defined inside [TelegramAddEchoHandler.execute]. *)
Definition echo (update : Update) (context : CallbackContext) : M unit :=
  if truthy (message update) && truthy (message update ≫= text) then
    chat <- getattr (effective_chat update) "id" ;;
    send_message (mkSend (bot context) (chat_ident chat)
                         (message update ≫= text) None None)
  else ret tt.

Module TelegramAddEchoHandler.

Record Ports := mkPorts {
  application : option AppRef;
  application_out : option AppRef
}.

Definition execute (self : Ports) (ctx : Ctx) : M Ports :=
  let app := application self in
  echo_handler <- new_MessageHandler (FAnd TEXT (FNot COMMAND)) EchoClosure ;;
  add_handler app echo_handler ;;
  ret (mkPorts (application self) app).

End TelegramAddEchoHandler.

Module TelegramRunApp.

Record Ports := mkPorts { application : option AppRef }.

Definition execute (self : Ports) (ctx : Ctx) : M Ports :=
  let app := application self in
  if negb (truthy app) then
    raise (ValueError "No Telegram Application provided!")
  else
    r <- getattr app "run_polling" ;;
    run_polling r ;;
    ret self.

End TelegramRunApp.

(** The event payload built by [command_callback]. *)
Definition make_payload (cmd message_text : string) (chat_id : Z)
    (user_id : PyVal) (update : Update) : Dict :=
  <["command_name" := VStr cmd]>
    (<["message_text" := VStr message_text]>
       (<["chat_id" := VInt chat_id]>
          (<["user_id" := user_id]>
             (<["update" := VUpdate update]> ∅)))).

(** [ctx.get('events', {}).get(evt, [])] *)
Definition listeners_for (ctx : Ctx) (evt : string) : list Listener :=
  default [] (default ∅ (ctx !! "events") !! evt).

(** [" ".join(context.args) if context.args else ""] *)
Definition message_text_of (context : CallbackContext) : string :=
  match args context with
  | Some l => if truthy l then join " " l else ""
  | None => ""
  end.

(** The callback [command_callback] defined inside
    [TelegramAddCommandEvent.execute], with the variables [cmd], [evt] and
    [ctx] that it closes over. *)
Definition command_callback (cmd evt : string) (ctx : Ctx)
    (update : Update) (context : CallbackContext) : M unit :=
  let message_text := message_text_of context in
  chat <- getattr (effective_chat update) "id" ;;
  let chat_id := chat_ident chat in
  let user_id := match effective_user update with
                 | Some u => if truthy u then VInt (user_ident u) else VNone
                 | None => VNone
                 end in
  let payload := make_payload cmd message_text chat_id user_id update in
  let listeners := listeners_for ctx evt in
  for_each listeners (fun listener =>
    set_payload listener payload ;;
    SubGraphExecutor_do listener).

Module TelegramAddCommandEvent.

Record Ports := mkPorts {
  application : option AppRef;
  command_name : option string;
  event_name : option string;
  application_out : option AppRef
}.

Definition execute (self : Ports) (ctx : Ctx) : M Ports :=
  let app := application self in
  cmd_value <- getattr (command_name self) "strip" ;;
  let cmd := strip cmd_value in
  evt_value <- getattr (event_name self) "strip" ;;
  let evt := strip evt_value in
  if negb (truthy app && truthy cmd && truthy evt) then
    raise (ValueError "Application, command_name, and event_name are required.")
  else
    handler <- new_CommandHandler cmd (CommandClosure cmd evt) ;;
    add_handler app handler ;;
    ret (mkPorts (application self) (command_name self) (event_name self) app).

End TelegramAddCommandEvent.

(** [execute] writes the five ports that come straight from the payload
    before it works out first_name; the record of ports is built here once
    all six values are known. *)
Module TelegramParsePayload.

Record Ports := mkPorts {
  event_payload : option Dict;
  chat_id : PyVal;
  user_id : PyVal;
  message_text : PyVal;
  update_obj : PyVal;
  command_name : PyVal;
  first_name : PyVal
}.

Definition execute (self : Ports) (ctx : Ctx) : M Ports :=
  let payload := or_else (event_payload self) ∅ in
  let update := dict_get payload "update" in
  first <- (if truthy update then
              user <- update_attr update "effective_user" effective_user ;;
              if truthy user then
                name <- getattr user "first_name" ;;
                ret (or_else (telegram.first_name name) "")
              else ret ""
            else ret "") ;;
  ret (mkPorts (event_payload self)
               (dict_get payload "chat_id")
               (dict_get payload "user_id")
               (dict_get payload "message_text")
               (dict_get payload "update")
               (dict_get payload "command_name")
               (VStr first)).

End TelegramParsePayload.

(** The coroutine [_send_reply] defined inside
    [TelegramReplyToMessageEvent.execute]: its body, run by the loop. *)
Definition _send_reply (co : Coroutine) : M unit :=
  r <- getattr (co_app co) "bot" ;;
  send_message (mkSend r (co_chat_id co) (co_reply_text co)
                       (Some HTML) (Some (co_message_id co))).

(** One turn of the event loop: the oldest pending task runs to its end.
    An exception in a task ends the task, not the loop. *)
Definition loop_step (w : World) : World :=
  match loop_tasks w with
  | [] => w
  | co :: rest =>
      snd (_send_reply co
             (mkWorld (apps w) (next_app w) (trace w) rest (bot_online w)
                      (library w)))
  end.

Module TelegramReplyToMessageEvent.

Record Ports := mkPorts {
  application : option AppRef;
  event_payload : option Dict;
  reply_text : option string
}.

Definition execute (self : Ports) (ctx : Ctx) : M Ports :=
  let app := application self in
  let payload := event_payload self in
  let reply_text := reply_text self in
  if negb (truthy app) then
    print "[TelegramReplyToMessage] No Telegram Application found!" ;;
    ret self
  else if negb (truthy payload) then
    print "[TelegramReplyToMessage] No event_payload provided, can't reply." ;;
    ret self
  else
    d <- getattr payload "get" ;;
    let update := dict_get d "update" in
    if negb (truthy update) then
      print "[TelegramReplyToMessage] No 'update' in event_payload, cannot reply." ;;
      ret self
    else
      chat <- update_attr update "effective_chat" effective_chat ;;
      chat <- getattr chat "id" ;;
      let chat_id := chat_ident chat in
      msg <- update_attr update "effective_message" effective_message ;;
      msg <- getattr msg "message_id" ;;
      let message_id := message_id msg in
      create_task (mkSendReply app chat_id reply_text message_id) ;;
      ret self.

End TelegramReplyToMessageEvent.

(** Running a closure that a handler holds. *)
Definition run_callback (cb : Callback) (ctx : Ctx)
    (update : Update) (context : CallbackContext) : M unit :=
  match cb with
  | EchoClosure => echo update context
  | CommandClosure cmd evt => command_callback cmd evt ctx update context
  end.

(** One possible library, for the examples: it accepts the commands made
    of 1 to 32 ASCII letters, digits and underscores, its TEXT filter takes
    an effective message with text, and its COMMAND filter one whose text
    begins with a slash followed by such a character; its polling ends by
    returning.  The theorems are stated for every library. *)
Definition command_character (c : ascii) : bool :=
  let n := nat_of_ascii c in
  (((48 <=? n) && (n <=? 57)) || ((65 <=? n) && (n <=? 90))
   || ((97 <=? n) && (n <=? 122)) || (n =? 95))%nat.

Fixpoint command_characters (s : string) : bool :=
  match s with
  | EmptyString => true
  | String c s' => command_character c && command_characters s'
  end.

Definition sample_library : Library :=
  {| command_rejection := fun command =>
       if ((1 <=? String.length command) && (String.length command <=? 32))%nat
          && command_characters command
       then None
       else Some (String.append "Command `"
                    (String.append command "` is not a valid bot command"));
     text_filter := fun update => truthy (effective_message update ≫= text);
     command_filter := fun update =>
       match effective_message update ≫= text with
       | Some (String "/" (String c _)) => command_character c
       | _ => false
       end;
     polling_error := fun _ => None |}.

(** A world in which nothing has happened yet. *)
Definition idle_world : World := mkWorld ∅ 0 [] [] true sample_library.

(** The events a computation added to the trace. *)
Definition added (w w' : World) (evs : list Event) : Prop :=
  trace w' = trace w ++ evs.

(* ===================================================================== *)
(** ** Every component behind the host's node contract *)
(* ===================================================================== *)

(** A component instance with the values on its ports. *)
Inductive Node :=
| InitApp (p : TelegramInitApp.Ports)
| AddEchoHandler (p : TelegramAddEchoHandler.Ports)
| RunApp (p : TelegramRunApp.Ports)
| AddCommandEvent (p : TelegramAddCommandEvent.Ports)
| ParsePayload (p : TelegramParsePayload.Ports)
| ReplyToMessageEvent (p : TelegramReplyToMessageEvent.Ports).

Definition fmap_outcome {A B} (f : A -> B) (r : Outcome A * World) : Outcome B * World :=
  match r with
  | (Returned a, w) => (Returned (f a), w)
  | (Raised e, w) => (Raised e, w)
  end.

(** The host's node contract: [node.execute(ctx)]. *)
Definition execute (n : Node) (ctx : Ctx) : M Node :=
  fun w =>
    match n with
    | InitApp p => fmap_outcome InitApp (TelegramInitApp.execute p ctx w)
    | AddEchoHandler p => fmap_outcome AddEchoHandler (TelegramAddEchoHandler.execute p ctx w)
    | RunApp p => fmap_outcome RunApp (TelegramRunApp.execute p ctx w)
    | AddCommandEvent p => fmap_outcome AddCommandEvent (TelegramAddCommandEvent.execute p ctx w)
    | ParsePayload p => fmap_outcome ParsePayload (TelegramParsePayload.execute p ctx w)
    | ReplyToMessageEvent p =>
        fmap_outcome ReplyToMessageEvent (TelegramReplyToMessageEvent.execute p ctx w)
    end.

(* ===================================================================== *)
(** ** The library's message filter *)
(* ===================================================================== *)

(** The text of the update's message, when there is a message and its text
    is not empty. *)
Definition incoming_text (update : Update) : option string :=
  match message update with
  | Some m =>
      match text m with
      | Some t => if truthy t then Some t else None
      | None => None
      end
  | None => None
  end.

(** A filter expression, evaluated with the library's own [TEXT] and
    [COMMAND]. *)
Fixpoint filter_check (lib : Library) (f : Filter) (update : Update) : bool :=
  match f with
  | TEXT => text_filter lib update
  | COMMAND => command_filter lib update
  | FAnd f1 f2 => filter_check lib f1 update && filter_check lib f2 update
  | FNot f1 => negb (filter_check lib f1 update)
  end.

(** [MessageHandler(f, cb)] runs its callback on the updates its filter
    accepts and ignores the others. *)
Definition handle_message (f : Filter) (cb : Callback) (ctx : Ctx) (update : Update)
    (context : CallbackContext) : M unit :=
  fun w =>
    if filter_check (library w) f update then run_callback cb ctx update context w
    else (Returned tt, w).

(* ===================================================================== *)
(** ** Vocabulary: outcomes, traces and handlers *)
(* ===================================================================== *)

Definition raises {A} (r : Outcome A * World) : Prop :=
  exists e, fst r = Raised e.

Definition returns {A} (r : Outcome A * World) : Prop :=
  exists a, fst r = Returned a.

(** The world with more events on its trace and nothing else changed. *)
Definition add_events (w : World) (evs : list Event) : World :=
  mkWorld (apps w) (next_app w) (trace w ++ evs) (loop_tasks w) (bot_online w) (library w).

(** What the console shows after the run and not before. *)
Definition printed (w w' : World) (line : string) : Prop :=
  added w w' [Print line].

Definition no_library_call (w w' : World) : Prop := lib_calls w' = lib_calls w.

(** The messages sent among some events. *)
Definition sends (evs : list Event) : list SendArgs :=
  flat_map (fun e => match e with LibSendMessage a => [a] | _ => [] end) evs.

(** The world after a handler was built and attached to the application
    [r]: two library calls, one more handler on [r]. *)
Definition attached (w : World) (r : AppRef) (built : Event) (h : Handler) : World :=
  mkWorld (<[r := handlers_of w r ++ [h]]> (apps w)) (next_app w)
          (trace w ++ [built; LibAddHandler r h]) (loop_tasks w) (bot_online w) (library w).

(** The world after [create_task(co)]: the task is queued, nothing ran. *)
Definition scheduled (w : World) (co : Coroutine) : World :=
  mkWorld (apps w) (next_app w) (trace w ++ [LoopCreateTask co])
          (loop_tasks w ++ [co]) (bot_online w) (library w).

Definition echo_handler : Handler := MessageHandler (FAnd TEXT (FNot COMMAND)) EchoClosure.

Definition command_handler (cmd evt : string) : Handler :=
  CommandHandler cmd (CommandClosure cmd evt).

(** The closure a handler holds. *)
Definition handler_callback (h : Handler) : Callback :=
  match h with
  | MessageHandler _ cb => cb
  | CommandHandler _ cb => cb
  end.

(** The handler added last to an application. *)
Definition newest_handler (w : World) (r : AppRef) : option Handler :=
  List.last (List.map Some (handlers_of w r)) None.

(* ===================================================================== *)
(** ** Vocabulary: stripped text *)
(* ===================================================================== *)

(** Made of whitespace characters only, one after the other. *)
Inductive whitespace_only : string -> Prop :=
| wo_nil : whitespace_only EmptyString
| wo_cons (sp rest : string) :
    In sp python_whitespace -> whitespace_only rest ->
    whitespace_only (String.append sp rest).

(** No whitespace at either end: however the text is cut in two, neither
    part is a non-empty run of whitespace. *)
Definition trimmed (t : string) : Prop :=
  forall a b, t = String.append a b ->
    (whitespace_only a -> a = EmptyString) /\ (whitespace_only b -> b = EmptyString).

(** [t] is [s] without the whitespace around it. *)
Definition stripped_of (s t : string) : Prop :=
  (exists pre post,
      s = String.append pre (String.append t post) /\
      whitespace_only pre /\ whitespace_only post) /\
  trimmed t.

(** The bytes that follow the first one inside a whitespace character. *)
Definition whitespace_tails : list string :=
  Eval vm_compute in
    flat_map (fun sp => match sp with
                        | String _ (String b (String c EmptyString)) =>
                            [String b (String c EmptyString); String c EmptyString]
                        | String _ (String b EmptyString) => [String b EmptyString]
                        | _ => []
                        end) python_whitespace.

(* ===================================================================== *)
(** ** Vocabulary: required inputs *)
(* ===================================================================== *)

(** A name port that carries nothing usable: unset, empty or blank. *)
Definition no_name (o : option string) : bool :=
  match o with
  | None => true
  | Some s => all_space s
  end.

(** The required inputs of each component, and when one is absent. *)
Definition required_input_absent (n : Node) : bool :=
  match n with
  | InitApp p => negb (truthy (TelegramInitApp.telegram_token p))
  | RunApp p => negb (truthy (TelegramRunApp.application p))
  | AddCommandEvent p =>
      negb (truthy (TelegramAddCommandEvent.application p))
      || no_name (TelegramAddCommandEvent.command_name p)
      || no_name (TelegramAddCommandEvent.event_name p)
  | ReplyToMessageEvent p =>
      negb (truthy (TelegramReplyToMessageEvent.application p))
      || negb (truthy (TelegramReplyToMessageEvent.event_payload p))
  | AddEchoHandler _ | ParsePayload _ => false
  end.

(** C1 in the specification's words: an absent required input makes
    [execute] raise, with no call into the wrapped library. *)
Definition raises_without_library_call (n : Node) (ctx : Ctx) (w : World) : Prop :=
  raises (execute n ctx w) /\ no_library_call w (snd (execute n ctx w)).

(** What the code does instead for the reply component. *)
Definition reports_and_returns (n : Node) (ctx : Ctx) (w : World) : Prop :=
  fst (execute n ctx w) = Returned n /\
  (exists line, printed w (snd (execute n ctx w)) line) /\
  loop_tasks (snd (execute n ctx w)) = loop_tasks w /\
  no_library_call w (snd (execute n ctx w)).

(* ===================================================================== *)
(** ** Vocabulary: firing a command event *)
(* ===================================================================== *)

(** [update.effective_user.id if update.effective_user else None] *)
Definition user_id_value (update : Update) : PyVal :=
  match effective_user update with
  | Some u => VInt (user_ident u)
  | None => VNone
  end.

(** What the loop over the listeners adds to the trace: each listener gets
    the payload on its port and is then run; the loop ends at the first
    listener whose body raises. *)
Fixpoint dispatch_events (payload : Dict) (ls : list Listener) : list Event :=
  match ls with
  | [] => []
  | l :: rest =>
      HostSetPayload l payload :: HostDo l ::
        match body_raises l with
        | None => dispatch_events payload rest
        | Some _ => []
        end
  end.

Fixpoint dispatch_outcome (ls : list Listener) : Outcome unit :=
  match ls with
  | [] => Returned tt
  | l :: rest =>
      match body_raises l with
      | None => dispatch_outcome rest
      | Some e => Raised e
      end
  end.

(** Assign, then invoke, for each listener in turn. *)
Definition assign_and_invoke (payload : Dict) (ls : list Listener) : list Event :=
  flat_map (fun l => [HostSetPayload l payload; HostDo l]) ls.

Definition payload_keys : gset string :=
  {[ "command_name"; "message_text"; "chat_id"; "user_id"; "update" ]}.

(** The payload of a command invocation, field by field. *)
Record payload_for (cmd : string) (update : Update) (payload : Dict) : Prop := {
  pf_keys : dom payload = payload_keys;
  pf_command_name : payload !! "command_name" = Some (VStr cmd);
  pf_chat_id : exists chat, effective_chat update = Some chat /\
                            payload !! "chat_id" = Some (VInt (chat_ident chat));
  pf_user_id : payload !! "user_id" =
               Some (match effective_user update with
                     | Some u => VInt (user_ident u)
                     | None => VNone
                     end);
  pf_update : payload !! "update" = Some (VUpdate update)
}.

(** No ['events'] entry, or no list under the event name. *)
Definition no_listener_list (ctx : Ctx) (evt : string) : Prop :=
  ctx !! "events" = None \/
  exists events : Events, ctx !! "events" = Some events /\ events !! evt = None.

(** C3 in the specification's words: every listener in the list under the
    event name is invoked. *)
Definition invokes_every_listener (cmd evt : string) (ctx : Ctx) (update : Update)
    (context : CallbackContext) (w : World) : Prop :=
  forall l, In l (listeners_for ctx evt) ->
            In (HostDo l) (trace (snd (command_callback cmd evt ctx update context w))).

(* ===================================================================== *)
(** ** Vocabulary: replies, pass-through and unpacking *)
(* ===================================================================== *)

(** The arguments [_send_reply] passes to [send_message]. *)
Definition reply_args (r : AppRef) (chat : Chat) (reply_text : option string)
    (original : Message) : SendArgs :=
  mkSend r (chat_ident chat) reply_text (Some HTML) (Some (message_id original)).

(** The task [execute] queues for valid inputs. *)
Definition reply_task (p : TelegramReplyToMessageEvent.Ports) (r : AppRef)
    (chat : Chat) (original : Message) : Coroutine :=
  mkSendReply (Some r) (chat_ident chat)
              (TelegramReplyToMessageEvent.reply_text p) (message_id original).

(** The application on the input port, and on the output port, of the two
    components that attach a handler. *)
Definition application_in (n : Node) : option AppRef :=
  match n with
  | AddEchoHandler p => TelegramAddEchoHandler.application p
  | AddCommandEvent p => TelegramAddCommandEvent.application p
  | _ => None
  end.

Definition application_out (n : Node) : option AppRef :=
  match n with
  | AddEchoHandler p => TelegramAddEchoHandler.application_out p
  | AddCommandEvent p => TelegramAddCommandEvent.application_out p
  | _ => None
  end.

Definition attaches_handler (n : Node) : bool :=
  match n with
  | AddEchoHandler _ | AddCommandEvent _ => true
  | _ => false
  end.

(** The handler each of the two components builds. *)
Definition handler_built (n : Node) (h : Handler) : Prop :=
  match n with
  | AddEchoHandler _ => h = echo_handler
  | AddCommandEvent p =>
      exists c e,
        TelegramAddCommandEvent.command_name p = Some c /\
        TelegramAddCommandEvent.event_name p = Some e /\
        h = command_handler (strip c) (strip e)
  | _ => False
  end.

(** The payload's value under a key, or None when the key or the payload
    itself is absent. *)
Definition payload_value (payload : option Dict) (k : string) : PyVal :=
  match payload with
  | Some d =>
      match d !! k with
      | Some v => v
      | None => VNone
      end
  | None => VNone
  end.

(** The first name of the effective user of the payload's update, or the
    empty string when any link of that chain is missing. *)
Definition payload_first_name (payload : option Dict) : string :=
  match payload_value payload "update" with
  | VUpdate u =>
      match effective_user u with
      | Some usr =>
          match first_name usr with
          | Some name => name
          | None => ""
          end
      | None => ""
      end
  | _ => ""
  end.

(* ===================================================================== *)
(** ** Example data *)
(* ===================================================================== *)

(** A command update: "/start now please" sent by Ann in chat 42. *)
Definition start_message : Message := mkMessage 11 (Some "/start now please").
Definition start_update : Update :=
  mkUpdate 7 (Some start_message) (Some start_message)
           (Some (mkChat 42)) (Some (mkUser 5 (Some "Ann"))).
Definition start_context : CallbackContext := mkContext 0%nat (Some ["now"; "please"]).

Definition start_ports : TelegramAddCommandEvent.Ports :=
  TelegramAddCommandEvent.mkPorts (Some 0%nat) (Some " start ") (Some "on_start ") None.

Definition greeter : Listener := mkListener 1 None.
Definition logger : Listener := mkListener 2 None.
Definition start_ctx : Ctx := {[ "events" := {[ "on_start" := [greeter; logger] ]} ]}.

Definition start_payload : Dict :=
  make_payload "start" "now please" 42 (VInt 5) start_update.

(** A world in which application 0 already has the start command. *)
Definition started_world : World :=
  snd (TelegramAddCommandEvent.execute start_ports ∅
         (snd (TelegramInitApp.execute (TelegramInitApp.mkPorts (Some "123:abc") None)
                 ∅ idle_world))).

(** "hello" written by Ann in chat 42. *)
Definition hello_message : Message := mkMessage 12 (Some "hello").
Definition hello_update : Update :=
  mkUpdate 8 (Some hello_message) (Some hello_message)
           (Some (mkChat 42)) (Some (mkUser 5 (Some "Ann"))).

Definition echo_ports : TelegramAddEchoHandler.Ports :=
  TelegramAddEchoHandler.mkPorts (Some 0) None.

Definition reply_ports : TelegramReplyToMessageEvent.Ports :=
  TelegramReplyToMessageEvent.mkPorts (Some 0%nat) (Some start_payload) (Some "<b>Hello</b>").

Definition reply_sent : Event :=
  LibSendMessage (mkSend 0%nat 42 (Some "<b>Hello</b>") (Some HTML) (Some 11%Z)).

(** The idle world with the bot cut off from Telegram. *)
Definition offline_world : World := mkWorld ∅ 0 [] [] false sample_library.

Definition parse_ports (payload : option Dict) : TelegramParsePayload.Ports :=
  TelegramParsePayload.mkPorts payload VNone VNone VNone VNone VNone VNone.

(** The reply component wired to nothing but a reply text. *)
Definition unwired_reply : Node :=
  ReplyToMessageEvent (TelegramReplyToMessageEvent.mkPorts None None (Some "hi")).

(** Every input missing at once: the strip call fails first. *)
Definition unwired_command : TelegramAddCommandEvent.Ports :=
  TelegramAddCommandEvent.mkPorts None None None None.

(** The start command between an em space and an ideographic space, the
    event name between a space and a no-break space. *)
Definition padded_ports : TelegramAddCommandEvent.Ports :=
  TelegramAddCommandEvent.mkPorts (Some 0%nat)
    (Some (String.append (utf8 0x2003) (String.append "start" (utf8 0x3000))))
    (Some (String.append " on_start" (utf8 0xA0))) None.

(* ===================================================================== *)
(** ** Vocabulary: failures, frames and compositions *)
(* ===================================================================== *)

(** The three components that check their inputs and raise. *)
Definition checks_inputs (n : Node) : bool :=
  match n with
  | InitApp _ | RunApp _ | AddCommandEvent _ => true
  | _ => false
  end.

(** A value that passes [if update] and is not an Update object. *)
Definition truthy_non_update (v : PyVal) : bool :=
  match v with
  | VInt z => negb (z =? 0)%Z
  | VStr s => truthy s
  | VNone | VUpdate _ => false
  end.


(** [effective_user.first_name or ""] for the user of an update, and the
    empty string without a user. *)
Definition first_name_of (update : Update) : string :=
  match effective_user update with
  | Some usr => default "" (first_name usr)
  | None => ""
  end.

(** The ports of [TelegramParsePayload] after unpacking the payload that
    [command_callback] builds. *)
Definition unpacked (payload : Dict) (cmd : string) (chat : Chat) (update : Update)
    (context : CallbackContext) : TelegramParsePayload.Ports :=
  TelegramParsePayload.mkPorts (Some payload)
    (VInt (chat_ident chat)) (user_id_value update)
    (VStr (message_text_of context)) (VUpdate update) (VStr cmd)
    (VStr (first_name_of update)).

(** A listener whose sub-graph raises. *)
Definition crashing : Listener := mkListener 3 (Some (ValueError "boom")).

Definition crash_ctx : Ctx :=
  {[ "events" := {[ "on_start" := [greeter; crashing; logger] ]} ]}.

(** A command posted in a channel: a chat, no user. *)
Definition channel_update : Update :=
  mkUpdate 9 None (Some start_message) (Some (mkChat 77)) None.

(** An update that carries no message at all. *)
Definition bare_update : Update := mkUpdate 10 None None (Some (mkChat 42)) None.

(* ===================================================================== *)
(** ** Facts about [strip] *)
(* ===================================================================== *)

Lemma append_cons (a : ascii) (x y : string) :
  String.append (String a x) y = String a (String.append x y).
Proof. reflexivity. Qed.

Lemma append_nil_r (x : string) : String.append x EmptyString = x.
Proof. induction x as [|a x IH]; [reflexivity|]. rewrite append_cons, IH. reflexivity. Qed.

Lemma append_assoc (x y z : string) :
  String.append (String.append x y) z = String.append x (String.append y z).
Proof. induction x as [|a x IH]; [reflexivity|]. rewrite !append_cons, IH. reflexivity. Qed.

Lemma length_append (x y : string) :
  String.length (String.append x y) = String.length x + String.length y.
Proof. induction x as [|a x IH]; [reflexivity|]. rewrite append_cons. simpl. rewrite IH. reflexivity. Qed.

Lemma is_space_in (x : string) : is_space x = true <-> In x python_whitespace.
Proof.
  unfold is_space. rewrite existsb_exists. split.
  - intros (y & Hy & Heq). apply String.eqb_eq in Heq. subst y. exact Hy.
  - intros H. exists x. split; [exact H | apply String.eqb_refl].
Qed.

Lemma lstrip_skip (s : string) :
  lstrip s = match skip_space s with Some r => lstrip r | None => s end.
Proof.
  destruct s as [|a [|b [|c r]]]; simpl; try reflexivity.
  - destruct (is_space (String a EmptyString)); reflexivity.
  - destruct (is_space (String a EmptyString)); [reflexivity|].
    destruct (is_space (String a (String b EmptyString))); reflexivity.
  - destruct (is_space (String a EmptyString)); [reflexivity|].
    destruct (is_space (String a (String b EmptyString))); [reflexivity|].
    destruct (is_space (String a (String b (String c EmptyString)))); reflexivity.
Qed.

Lemma skip_space_some (s r : string) :
  skip_space s = Some r ->
  exists sp, In sp python_whitespace /\ s = String.append sp r.
Proof.
  destruct s as [|a r1]; simpl; [discriminate|].
  destruct (is_space (String a EmptyString)) eqn:H1.
  { intros [= <-]. exists (String a EmptyString). split; [apply is_space_in, H1 | reflexivity]. }
  destruct r1 as [|b r2]; [discriminate|].
  destruct (is_space (String a (String b EmptyString))) eqn:H2.
  { intros [= <-]. exists (String a (String b EmptyString)).
    split; [apply is_space_in, H2 | reflexivity]. }
  destruct r2 as [|c r3]; [discriminate|].
  destruct (is_space (String a (String b (String c EmptyString)))) eqn:H3; [|discriminate].
  intros [= <-]. exists (String a (String b (String c EmptyString))).
  split; [apply is_space_in, H3 | reflexivity].
Qed.

Lemma skip_space_char (sp y : string) :
  In sp python_whitespace -> skip_space (String.append sp y) = Some y.
Proof.
  intros H. unfold python_whitespace in H.
  repeat (destruct H as [<- | H]; [reflexivity|]). destruct H.
Qed.

Lemma whitespace_not_empty (sp : string) : In sp python_whitespace -> sp <> EmptyString.
Proof.
  intros H ->. unfold python_whitespace in H.
  repeat (destruct H as [H | H]; [discriminate H|]). destruct H.
Qed.

Lemma lstrip_char (sp y : string) :
  In sp python_whitespace -> lstrip (String.append sp y) = lstrip y.
Proof. intros H. rewrite lstrip_skip, (skip_space_char sp y H). reflexivity. Qed.

Lemma lstrip_whitespace_only (pre x : string) :
  whitespace_only pre -> lstrip (String.append pre x) = lstrip x.
Proof.
  induction 1 as [|sp rest Hsp _ IH]; [reflexivity|].
  rewrite append_assoc, (lstrip_char sp _ Hsp). exact IH.
Qed.

Lemma all_space_lstrip (s : string) : all_space s = true <-> lstrip s = EmptyString.
Proof. unfold all_space. destruct (lstrip s); split; congruence. Qed.

Lemma string_length_ind (P : string -> Prop) :
  (forall s, (forall r, String.length r < String.length s -> P r) -> P s) ->
  forall s, P s.
Proof.
  intros H s. remember (String.length s) as n eqn:Hn.
  revert s Hn. induction n as [n IH] using lt_wf_ind. intros s ->.
  apply H. intros r Hr. exact (IH _ Hr r eq_refl).
Qed.

Lemma skip_space_shorter (s r : string) :
  skip_space s = Some r -> String.length r < String.length s.
Proof.
  intros H. destruct (skip_space_some s r H) as (sp & Hsp & ->).
  rewrite length_append. pose proof (whitespace_not_empty sp Hsp).
  destruct sp; [congruence | simpl; lia].
Qed.

Lemma all_space_iff (s : string) : all_space s = true <-> whitespace_only s.
Proof.
  rewrite all_space_lstrip. split.
  - induction s as [s IH] using string_length_ind. rewrite lstrip_skip.
    destruct (skip_space s) as [r|] eqn:Hs.
    + intros Hr. destruct (skip_space_some s r Hs) as (sp & Hsp & ->).
      apply wo_cons; [exact Hsp|]. apply IH; [|exact Hr].
      exact (skip_space_shorter _ _ Hs).
    + intros ->. constructor.
  - intros H. rewrite <- (append_nil_r s). rewrite (lstrip_whitespace_only s _ H). reflexivity.
Qed.

Lemma not_whitespace_only (s : string) : all_space s = false -> ~ whitespace_only s.
Proof. intros H Hs. apply all_space_iff in Hs. congruence. Qed.

Lemma whitespace_only_append (a b : string) :
  whitespace_only a -> whitespace_only b -> whitespace_only (String.append a b).
Proof.
  induction 1 as [|sp rest Hsp _ IH]; intros Hb; [exact Hb|].
  rewrite append_assoc. apply wo_cons; auto.
Qed.

Lemma all_space_append (a b : string) :
  all_space a = true -> all_space b = true -> all_space (String.append a b) = true.
Proof. rewrite !all_space_iff. apply whitespace_only_append. Qed.

Lemma lstrip_split (s : string) :
  exists pre, s = String.append pre (lstrip s) /\ all_space pre = true.
Proof.
  induction s as [s IH] using string_length_ind. rewrite lstrip_skip.
  destruct (skip_space s) as [r|] eqn:Hs.
  - destruct (skip_space_some s r Hs) as (sp & Hsp & ->).
    destruct (IH r (skip_space_shorter _ _ Hs)) as (pre & Hr & Hpre).
    exists (String.append sp pre). split.
    + rewrite append_assoc, <- Hr. reflexivity.
    + apply all_space_iff. apply wo_cons; [exact Hsp | apply all_space_iff, Hpre].
  - exists EmptyString. split; reflexivity.
Qed.

Lemma lstrip_done (s : string) : skip_space (lstrip s) = None.
Proof.
  induction s as [s IH] using string_length_ind. rewrite lstrip_skip.
  destruct (skip_space s) as [r|] eqn:Hs; [|exact Hs].
  exact (IH r (skip_space_shorter _ _ Hs)).
Qed.

Lemma lstrip_idempotent (s : string) : lstrip (lstrip s) = lstrip s.
Proof. rewrite (lstrip_skip (lstrip s)), lstrip_done. reflexivity. Qed.

Lemma rstrip_split (s : string) :
  exists post, s = String.append (rstrip s) post /\ all_space post = true.
Proof.
  induction s as [|a s IH]; [exists EmptyString; split; reflexivity|].
  cbn [rstrip]. destruct (all_space (String a s)) eqn:Hall.
  - exists (String a s). split; [reflexivity | exact Hall].
  - destruct IH as (post & Hs & Hpost). exists post. split; [|exact Hpost].
    rewrite append_cons, <- Hs. reflexivity.
Qed.

Lemma rstrip_empty (s : string) : rstrip s = EmptyString -> all_space s = true.
Proof.
  destruct s as [|a s]; [reflexivity|]. cbn [rstrip].
  destruct (all_space (String a s)); [reflexivity | discriminate].
Qed.

Lemma strip_split (s : string) :
  exists pre post,
    s = String.append pre (String.append (strip s) post) /\
    all_space pre = true /\ all_space post = true.
Proof.
  destruct (lstrip_split s) as [pre [Hs Hpre]].
  destruct (rstrip_split (lstrip s)) as [post [Hl Hpost]].
  exists pre, post. unfold strip. rewrite <- Hl. auto.
Qed.

Lemma strip_all_space (s : string) : all_space s = true -> strip s = EmptyString.
Proof. intros H. apply all_space_lstrip in H. unfold strip. rewrite H. reflexivity. Qed.

Lemma strip_empty_iff (s : string) : strip s = EmptyString <-> all_space s = true.
Proof.
  split; [|apply strip_all_space].
  intros H. apply rstrip_empty in H. apply all_space_lstrip in H.
  rewrite lstrip_idempotent in H. apply all_space_lstrip. exact H.
Qed.

Lemma all_space_starts (a b : string) :
  all_space a = true -> a <> EmptyString ->
  exists r, skip_space (String.append a b) = Some r.
Proof.
  intros Ha Hne. apply all_space_iff in Ha. destruct Ha as [|sp rest Hsp _]; [congruence|].
  rewrite append_assoc. eexists. apply (skip_space_char sp _ Hsp).
Qed.

Lemma rstrip_no_space_suffix (y a b : string) :
  rstrip y = String.append a b -> all_space b = true -> b = EmptyString.
Proof.
  revert a. induction y as [|c y IH]; intros a Hy Hb.
  - destruct a; cbv [String.append rstrip] in Hy; [congruence | discriminate Hy].
  - cbn [rstrip] in Hy. destruct (all_space (String c y)) eqn:Hall.
    + destruct a; cbv [String.append] in Hy; [congruence | discriminate Hy].
    + destruct a as [|c' a].
      * change (String c (rstrip y) = b) in Hy. subst b.
        destruct (rstrip_split (String c y)) as (post & Hs & Hpost).
        cbn [rstrip] in Hs. rewrite Hall in Hs.
        rewrite Hs in Hall. rewrite (all_space_append _ _ Hb Hpost) in Hall. discriminate Hall.
      * rewrite append_cons in Hy. injection Hy as _ Hy. exact (IH a Hy Hb).
Qed.

Lemma strip_trimmed (s : string) : trimmed (strip s).
Proof.
  intros a b Hab. split.
  - intros Ha%all_space_iff. destruct a as [|c a']; [reflexivity|]. exfalso.
    destruct (rstrip_split (lstrip s)) as (post & Hl & _).
    fold (strip s) in Hl. rewrite Hab, append_assoc in Hl.
    destruct (all_space_starts (String c a') (String.append b post) Ha) as [r Hr];
      [discriminate|].
    rewrite <- Hl, lstrip_done in Hr. discriminate Hr.
  - intros Hb%all_space_iff. exact (rstrip_no_space_suffix _ a b Hab Hb).
Qed.

Lemma strip_stripped_of (s : string) : stripped_of s (strip s).
Proof.
  split; [|apply strip_trimmed].
  destruct (strip_split s) as (pre & post & Hs & Hpre & Hpost).
  exists pre, post. rewrite <- !all_space_iff. auto.
Qed.

Lemma tail_not_a_start (q y : string) :
  In q whitespace_tails -> skip_space (String.append q y) = None.
Proof.
  intros H. unfold whitespace_tails in H.
  repeat (destruct H as [<- | H]; [destruct y as [|b [|c y]]; reflexivity|]). destruct H.
Qed.

Ltac split_bytes :=
  repeat match goal with
         | H : String _ _ = String _ _ |- _ => injection H; clear H; intros; subst
         | H : EmptyString = String _ _ |- _ => discriminate H
         | H : String _ _ = EmptyString |- _ => discriminate H
         | H : EmptyString = ?q, Hq : ?q <> EmptyString |- _ => symmetry in H; contradiction
         | H : ?x <> ?x |- _ => contradiction H; reflexivity
         end.

Lemma whitespace_split_tail (sp t q : string) :
  In sp python_whitespace -> sp = String.append t q ->
  t <> EmptyString -> q <> EmptyString -> In q whitespace_tails.
Proof.
  intros H Heq Ht Hq. unfold python_whitespace in H.
  repeat (destruct H as [<- | H];
          [destruct t as [|a1 [|a2 [|a3 [|a4 t]]]]; cbv [String.append] in Heq;
           split_bytes; unfold whitespace_tails; cbn; tauto|]).
  destruct H.
Qed.

Lemma append_eq_append (t post sp r : string) :
  String.append t post = String.append sp r ->
  (exists t', t = String.append sp t' /\ r = String.append t' post) \/
  (exists q, q <> EmptyString /\ sp = String.append t q /\ post = String.append q r).
Proof.
  revert sp. induction t as [|a t IH]; intros sp H.
  - destruct sp as [|b sp].
    + left. exists EmptyString. split; [reflexivity|]. cbv [String.append] in H. auto.
    + right. exists (String b sp). split; [discriminate|]. split; [reflexivity | exact H].
  - destruct sp as [|b sp].
    + left. exists (String a t). split; [reflexivity|]. cbv [String.append] in H. auto.
    + rewrite !append_cons in H. injection H as -> H.
      destruct (IH sp H) as [(t' & -> & ->) | (q & Hq & -> & ->)].
      * left. exists t'. split; reflexivity.
      * right. exists q. repeat split; auto.
Qed.

(** A whitespace character at the front of [t ++ post], where [post] is
    whitespace, lies inside [t] unless [t] is empty: whitespace never
    begins with the bytes that end a whitespace character. *)
Lemma leading_space_inside (t post r : string) :
  skip_space (String.append t post) = Some r ->
  t <> EmptyString ->
  all_space post = true ->
  exists sp t', In sp python_whitespace /\ t = String.append sp t' /\
                r = String.append t' post.
Proof.
  intros Hs Ht Hpost. destruct (skip_space_some _ _ Hs) as (sp & Hsp & Heq).
  destruct (append_eq_append t post sp r Heq) as [(t' & -> & ->) | (q & Hq & -> & ->)].
  - exists sp, t'. auto.
  - exfalso. pose proof (whitespace_split_tail _ t q Hsp eq_refl Ht Hq) as Hq'.
    assert (String.append q r <> EmptyString) as Hne by (destruct q; [congruence | discriminate]).
    destruct (all_space_starts _ EmptyString Hpost Hne) as [r' Hr'].
    rewrite append_nil_r, (tail_not_a_start q r Hq') in Hr'. discriminate Hr'.
Qed.

Lemma all_space_prefix (t post : string) :
  all_space (String.append t post) = true -> all_space post = true -> all_space t = true.
Proof.
  induction t as [t IH] using string_length_ind. intros Hall Hpost.
  destruct t as [|a t']; [reflexivity|].
  destruct (all_space_starts _ EmptyString Hall) as [r Hr]; [discriminate|].
  rewrite append_nil_r in Hr.
  destruct (leading_space_inside _ post r Hr) as (sp & t1 & Hsp & Ht & ->);
    [discriminate | exact Hpost |].
  rewrite Ht. apply all_space_iff. apply wo_cons; [exact Hsp|]. apply all_space_iff.
  apply IH.
  - rewrite Ht, length_append. pose proof (whitespace_not_empty sp Hsp).
    destruct sp; [congruence | simpl; lia].
  - apply all_space_lstrip. apply all_space_lstrip in Hall.
    rewrite Ht, append_assoc, (lstrip_char sp _ Hsp) in Hall. exact Hall.
  - exact Hpost.
Qed.

Lemma lstrip_keeps (t post : string) :
  (forall a b, t = String.append a b -> all_space a = true -> a = EmptyString) ->
  t <> EmptyString ->
  all_space post = true ->
  lstrip (String.append t post) = String.append t post.
Proof.
  intros Hpre Ht Hpost. rewrite lstrip_skip.
  destruct (skip_space (String.append t post)) as [r|] eqn:Hs; [|reflexivity].
  destruct (leading_space_inside t post r Hs Ht Hpost) as (sp & t' & Hsp & Heq & _).
  assert (sp = EmptyString) as Hnil.
  { apply (Hpre sp t' Heq). apply all_space_iff.
    rewrite <- (append_nil_r sp). apply wo_cons; [exact Hsp | constructor]. }
  destruct (whitespace_not_empty sp Hsp Hnil).
Qed.

Lemma rstrip_keeps (t post : string) :
  (forall a b, t = String.append a b -> all_space b = true -> b = EmptyString) ->
  all_space post = true ->
  rstrip (String.append t post) = t.
Proof.
  intros Hsuf Hpost. induction t as [|c t IH].
  - change (String.append EmptyString post) with post.
    destruct post as [|a post]; [reflexivity|]. cbn [rstrip]. rewrite Hpost. reflexivity.
  - rewrite append_cons. cbn [rstrip]. rewrite <- append_cons.
    destruct (all_space (String.append (String c t) post)) eqn:Hall.
    + pose proof (all_space_prefix _ _ Hall Hpost) as Ht.
      discriminate (Hsuf EmptyString (String c t) eq_refl Ht).
    + f_equal. apply IH. intros a b -> Hb. exact (Hsuf (String c a) b eq_refl Hb).
Qed.

(** [strip s] is the only text that is [s] without the whitespace around
    it. *)
Lemma strip_unique (s t : string) : stripped_of s t -> strip s = t.
Proof.
  intros [(pre & post & -> & Hpre & Hpost%all_space_iff) Htrim]. unfold strip.
  rewrite (lstrip_whitespace_only pre _ Hpre).
  destruct t as [|c t].
  - change (String.append EmptyString post) with post.
    apply all_space_lstrip in Hpost. rewrite Hpost. reflexivity.
  - rewrite lstrip_keeps; [| |discriminate|exact Hpost].
    + apply rstrip_keeps; [|exact Hpost].
      intros a b Hab Hb%all_space_iff. exact (proj2 (Htrim a b Hab) Hb).
    + intros a b Hab Ha%all_space_iff. exact (proj1 (Htrim a b Hab) Ha).
Qed.

Lemma strip_of_trimmed (s : string) : trimmed s -> strip s = s.
Proof.
  intros H. apply strip_unique. split; [|exact H].
  exists EmptyString, EmptyString. rewrite append_nil_r. repeat split; constructor.
Qed.

Lemma strip_idempotent (s : string) : strip (strip s) = strip s.
Proof. apply strip_of_trimmed, strip_trimmed. Qed.

(* ===================================================================== *)
(** ** Worlds and traces *)
(* ===================================================================== *)

Lemma add_events_nil (w : World) : add_events w [] = w.
Proof. destruct w. unfold add_events. simpl. rewrite app_nil_r. reflexivity. Qed.

Lemma add_events_app (w : World) (a b : list Event) :
  add_events (add_events w a) b = add_events w (a ++ b).
Proof. unfold add_events. simpl. rewrite <- app_assoc. reflexivity. Qed.

Lemma lib_calls_add_events (w : World) (evs : list Event) :
  lib_calls (add_events w evs) = lib_calls w ++ List.filter is_lib_call evs.
Proof. unfold lib_calls, add_events. simpl. apply List.filter_app. Qed.

Lemma emit_add_events (e : Event) (w : World) :
  emit e w = (Returned tt, add_events w [e]).
Proof. reflexivity. Qed.

Lemma truthy_option_appref (o : option AppRef) : truthy o = false <-> o = None.
Proof. destruct o; cbv; split; congruence. Qed.

Lemma strip_truthy (s : string) : truthy (strip s) = negb (all_space s).
Proof.
  destruct (all_space s) eqn:Hs.
  - rewrite (strip_all_space s Hs). reflexivity.
  - destruct (strip s) eqn:Hst; [|reflexivity].
    apply strip_empty_iff in Hst. congruence.
Qed.

(* ===================================================================== *)
(** ** Absent required inputs *)
(* ===================================================================== *)

Lemma init_app_no_token (p : TelegramInitApp.Ports) (ctx : Ctx) (w : World) :
  truthy (TelegramInitApp.telegram_token p) = false ->
  TelegramInitApp.execute p ctx w = (Raised (ValueError "No Telegram token provided!"), w).
Proof. intros H. unfold TelegramInitApp.execute. rewrite H. reflexivity. Qed.

Lemma run_app_no_application (p : TelegramRunApp.Ports) (ctx : Ctx) (w : World) :
  truthy (TelegramRunApp.application p) = false ->
  TelegramRunApp.execute p ctx w =
    (Raised (ValueError "No Telegram Application provided!"), w).
Proof. intros H. unfold TelegramRunApp.execute. rewrite H. reflexivity. Qed.

(** The two ways [TelegramAddCommandEvent.execute] can fail. *)
Lemma add_command_event_none_name (p : TelegramAddCommandEvent.Ports) (ctx : Ctx) (w : World) :
  TelegramAddCommandEvent.command_name p = None \/
  TelegramAddCommandEvent.event_name p = None ->
  TelegramAddCommandEvent.execute p ctx w = (Raised (AttributeError "NoneType" "strip"), w).
Proof.
  intros H. unfold TelegramAddCommandEvent.execute, bind.
  destruct (TelegramAddCommandEvent.command_name p) as [c|]; [|reflexivity].
  destruct H as [H|H]; [discriminate|]. rewrite H. reflexivity.
Qed.

Lemma add_command_event_check_fails (p : TelegramAddCommandEvent.Ports) (ctx : Ctx)
    (w : World) (c e : string) :
  TelegramAddCommandEvent.command_name p = Some c ->
  TelegramAddCommandEvent.event_name p = Some e ->
  TelegramAddCommandEvent.application p = None \/ all_space c = true \/ all_space e = true ->
  TelegramAddCommandEvent.execute p ctx w =
    (Raised (ValueError "Application, command_name, and event_name are required."), w).
Proof.
  intros Hc He H. unfold TelegramAddCommandEvent.execute, bind. rewrite Hc, He. simpl.
  rewrite !strip_truthy.
  destruct H as [H|[H|H]]; rewrite H; simpl;
    rewrite ?andb_false_r; reflexivity.
Qed.

Lemma reply_no_application (p : TelegramReplyToMessageEvent.Ports) (ctx : Ctx) (w : World) :
  truthy (TelegramReplyToMessageEvent.application p) = false ->
  TelegramReplyToMessageEvent.execute p ctx w =
    (Returned p,
     add_events w [Print "[TelegramReplyToMessage] No Telegram Application found!"]).
Proof. intros H. unfold TelegramReplyToMessageEvent.execute. rewrite H. reflexivity. Qed.

Lemma reply_no_payload (p : TelegramReplyToMessageEvent.Ports) (ctx : Ctx) (w : World) :
  truthy (TelegramReplyToMessageEvent.application p) = true ->
  truthy (TelegramReplyToMessageEvent.event_payload p) = false ->
  TelegramReplyToMessageEvent.execute p ctx w =
    (Returned p,
     add_events w [Print "[TelegramReplyToMessage] No event_payload provided, can't reply."]).
Proof.
  intros Ha H. unfold TelegramReplyToMessageEvent.execute. rewrite Ha, H. reflexivity.
Qed.

Lemma no_library_call_refl (w : World) : no_library_call w w.
Proof. reflexivity. Qed.

Lemma no_library_call_print (w : World) (line : string) :
  no_library_call w (add_events w [Print line]).
Proof.
  unfold no_library_call. rewrite lib_calls_add_events. simpl. apply app_nil_r.
Qed.

(** C1, amended.  When a required input is absent, no component calls into
    the wrapped library.  [TelegramInitApp], [TelegramRunApp] and
    [TelegramAddCommandEvent] raise and leave the world as it was;
    [TelegramReplyToMessageEvent] does not raise: it prints one diagnostic
    line, schedules nothing and returns normally. *)
Theorem absent_required_input (n : Node) (ctx : Ctx) (w : World) :
  required_input_absent n = true ->
  match n with
  | ReplyToMessageEvent _ => reports_and_returns n ctx w
  | _ => raises (execute n ctx w) /\ snd (execute n ctx w) = w
  end.
Proof.
  intros H. destruct n as [p|p|p|p|p|p]; simpl in H; try discriminate.
  - apply negb_true_iff in H. unfold execute.
    rewrite (init_app_no_token p ctx w H). split; [eexists|]; reflexivity.
  - apply negb_true_iff in H. unfold execute.
    rewrite (run_app_no_application p ctx w H). split; [eexists|]; reflexivity.
  - unfold execute.
    destruct (TelegramAddCommandEvent.command_name p) as [c|] eqn:Hc.
    2:{ rewrite (add_command_event_none_name p ctx w) by (left; exact Hc).
        split; [eexists|]; reflexivity. }
    destruct (TelegramAddCommandEvent.event_name p) as [e|] eqn:He.
    2:{ rewrite (add_command_event_none_name p ctx w) by (right; exact He).
        split; [eexists|]; reflexivity. }
    rewrite (add_command_event_check_fails p ctx w c e Hc He).
    + split; [eexists|]; reflexivity.
    + simpl in H. apply orb_true_iff in H as [H|H]; [|auto].
      apply orb_true_iff in H as [H|H]; [|auto].
      left. apply truthy_option_appref. apply negb_true_iff. exact H.
  - unfold reports_and_returns, execute.
    destruct (truthy (TelegramReplyToMessageEvent.application p)) eqn:Ha.
    + simpl in H. rewrite (reply_no_payload p ctx w Ha) by (apply negb_true_iff; exact H).
      simpl. repeat split; [eexists; reflexivity | apply no_library_call_print].
    + rewrite (reply_no_application p ctx w Ha).
      simpl. repeat split; [eexists; reflexivity | apply no_library_call_print].
Qed.

(** C1 as stated fails: with no application on its port the reply component
    returns normally instead of raising. *)
Lemma reply_without_application_does_not_raise :
  required_input_absent unwired_reply = true /\
  ~ raises_without_library_call unwired_reply ∅ idle_world.
Proof.
  split; [reflexivity|].
  intros [[e He] _]. vm_compute in He. discriminate He.
Qed.

Lemma absent_required_input_witness :
  reports_and_returns unwired_reply ∅ idle_world.
Proof.
  apply (absent_required_input unwired_reply ∅ idle_world).
  reflexivity.
Defined.

(* ===================================================================== *)
(** ** Firing a command event *)
(* ===================================================================== *)

Lemma for_each_dispatch (payload : Dict) (ls : list Listener) (w : World) :
  for_each ls (fun listener =>
    set_payload listener payload ;; SubGraphExecutor_do listener) w
  = (dispatch_outcome ls, add_events w (dispatch_events payload ls)).
Proof.
  revert w. induction ls as [|l rest IH]; intros w.
  - simpl. unfold ret. rewrite add_events_nil. reflexivity.
  - simpl. unfold bind at 1. unfold bind at 1.
    unfold set_payload. rewrite emit_add_events.
    unfold SubGraphExecutor_do, bind at 1. rewrite emit_add_events.
    destruct (body_raises l) as [e|].
    + unfold raise. rewrite add_events_app. reflexivity.
    + unfold ret. rewrite IH, !add_events_app. reflexivity.
Qed.

Lemma dispatch_all_return (payload : Dict) (ls : list Listener) :
  Forall (fun l => body_raises l = None) ls ->
  dispatch_outcome ls = Returned tt /\
  dispatch_events payload ls = assign_and_invoke payload ls.
Proof.
  induction 1 as [|l rest Hl _ [IHo IHe]]; [split; reflexivity|].
  simpl. rewrite Hl. split; [exact IHo | rewrite IHe; reflexivity].
Qed.

Lemma dispatch_events_payload (payload p : Dict) (ls : list Listener) (l : Listener) :
  In (HostSetPayload l p) (dispatch_events payload ls) -> p = payload /\ In l ls.
Proof.
  induction ls as [|l0 rest IH]; simpl; [tauto|].
  intros [H|[H|H]].
  - injection H as -> ->. auto.
  - discriminate H.
  - destruct (body_raises l0); [destruct H|].
    destruct (IH H). auto.
Qed.

(** The whole callback, once the chat of the update is known. *)
Lemma command_callback_run (cmd evt : string) (ctx : Ctx) (update : Update)
    (context : CallbackContext) (chat : Chat) (w : World) :
  effective_chat update = Some chat ->
  let payload := make_payload cmd (message_text_of context) (chat_ident chat)
                              (user_id_value update) update in
  command_callback cmd evt ctx update context w
  = (dispatch_outcome (listeners_for ctx evt),
     add_events w (dispatch_events payload (listeners_for ctx evt))).
Proof.
  intros Hchat payload. unfold command_callback, bind at 1.
  rewrite Hchat. simpl.
  replace (match effective_user update with
           | Some u => if truthy u then VInt (user_ident u) else VNone
           | None => VNone
           end) with (user_id_value update)
    by (unfold user_id_value; destruct (effective_user update); reflexivity).
  apply for_each_dispatch.
Qed.

(** An update without a chat: the callback fails before anything is built. *)
Lemma command_callback_no_chat (cmd evt : string) (ctx : Ctx) (update : Update)
    (context : CallbackContext) (w : World) :
  effective_chat update = None ->
  command_callback cmd evt ctx update context w
  = (Raised (AttributeError "NoneType" "id"), w).
Proof. intros H. unfold command_callback, bind. rewrite H. reflexivity. Qed.

Lemma added_unique (w w' : World) (a b : list Event) :
  added w w' a -> added w w' b -> a = b.
Proof. unfold added. intros Ha Hb. rewrite Ha in Hb. exact (app_inv_head _ _ _ Hb). Qed.

Lemma added_add_events (w : World) (evs : list Event) : added w (add_events w evs) evs.
Proof. reflexivity. Qed.

(** Every payload the callback hands out is the one it built. *)
Lemma command_callback_payload (cmd evt : string) (ctx : Ctx) (update : Update)
    (context : CallbackContext) (w : World) (evs : list Event)
    (l : Listener) (payload : Dict) :
  added w (snd (command_callback cmd evt ctx update context w)) evs ->
  In (HostSetPayload l payload) evs ->
  exists chat,
    effective_chat update = Some chat /\
    In l (listeners_for ctx evt) /\
    payload = make_payload cmd (message_text_of context) (chat_ident chat)
                           (user_id_value update) update.
Proof.
  intros Hadd Hin. destruct (effective_chat update) as [chat|] eqn:Hchat.
  - rewrite (command_callback_run cmd evt ctx update context chat w Hchat) in Hadd.
    simpl in Hadd.
    rewrite (added_unique _ _ _ _ Hadd (added_add_events w _)) in Hin.
    apply dispatch_events_payload in Hin as [-> Hl]. eauto.
  - rewrite (command_callback_no_chat cmd evt ctx update context w Hchat) in Hadd.
    simpl in Hadd.
    assert (evs = []) as ->.
    { apply (added_unique w w); [exact Hadd|]. unfold added. symmetry. apply app_nil_r. }
    destruct Hin.
Qed.

(* ===================================================================== *)
(** ** Attaching handlers *)
(* ===================================================================== *)

Lemma handlers_of_attached (w : World) (r : AppRef) (built : Event) (h : Handler) :
  handlers_of (attached w r built h) r = handlers_of w r ++ [h].
Proof. unfold handlers_of at 1, attached. simpl. rewrite lookup_insert_eq. reflexivity. Qed.

Lemma handlers_of_attached_other (w : World) (r r' : AppRef) (built : Event) (h : Handler) :
  r' <> r -> handlers_of (attached w r built h) r' = handlers_of w r'.
Proof.
  intros Hne. unfold handlers_of, attached. simpl.
  rewrite lookup_insert_ne by congruence. reflexivity.
Qed.

Lemma add_echo_handler_ok (p : TelegramAddEchoHandler.Ports) (ctx : Ctx) (w : World)
    (r : AppRef) :
  TelegramAddEchoHandler.application p = Some r ->
  TelegramAddEchoHandler.execute p ctx w
  = (Returned (TelegramAddEchoHandler.mkPorts (Some r) (Some r)),
     attached w r (LibMessageHandler (FAnd TEXT (FNot COMMAND)) EchoClosure) echo_handler).
Proof.
  intros H. unfold TelegramAddEchoHandler.execute. rewrite H.
  unfold attached, bind, new_MessageHandler, bind, emit, add_handler, bind, getattr, ret.
  simpl. rewrite <- app_assoc. reflexivity.
Qed.

Lemma add_echo_handler_no_application (p : TelegramAddEchoHandler.Ports) (ctx : Ctx)
    (w : World) :
  TelegramAddEchoHandler.application p = None ->
  TelegramAddEchoHandler.execute p ctx w
  = (Raised (AttributeError "NoneType" "add_handler"),
     add_events w [LibMessageHandler (FAnd TEXT (FNot COMMAND)) EchoClosure]).
Proof. intros H. unfold TelegramAddEchoHandler.execute. rewrite H. reflexivity. Qed.

Lemma add_command_event_ok (p : TelegramAddCommandEvent.Ports) (ctx : Ctx) (w : World)
    (r : AppRef) (c e : string) :
  TelegramAddCommandEvent.application p = Some r ->
  TelegramAddCommandEvent.command_name p = Some c ->
  TelegramAddCommandEvent.event_name p = Some e ->
  all_space c = false ->
  all_space e = false ->
  command_rejection (library w) (strip c) = None ->
  TelegramAddCommandEvent.execute p ctx w
  = (Returned (TelegramAddCommandEvent.mkPorts (Some r) (Some c) (Some e) (Some r)),
     attached w r (LibCommandHandler (strip c) (CommandClosure (strip c) (strip e)))
              (command_handler (strip c) (strip e))).
Proof.
  intros Ha Hc He Hcs Hes Hlib. unfold TelegramAddCommandEvent.execute, bind at 1.
  rewrite Hc. simpl. unfold bind at 1. rewrite He. simpl.
  rewrite Ha, !strip_truthy, Hcs, Hes. simpl.
  unfold attached, bind, new_CommandHandler, bind, emit, add_handler, bind, getattr, ret.
  simpl. rewrite Hlib. simpl. rewrite <- app_assoc. reflexivity.
Qed.

(** The library turns the stripped command down: the constructor has been
    called, nothing is attached. *)
Lemma add_command_event_rejected (p : TelegramAddCommandEvent.Ports) (ctx : Ctx) (w : World)
    (c e msg : string) :
  truthy (TelegramAddCommandEvent.application p) = true ->
  TelegramAddCommandEvent.command_name p = Some c ->
  TelegramAddCommandEvent.event_name p = Some e ->
  all_space c = false ->
  all_space e = false ->
  command_rejection (library w) (strip c) = Some msg ->
  TelegramAddCommandEvent.execute p ctx w
  = (Raised (ValueError msg),
     add_events w [LibCommandHandler (strip c) (CommandClosure (strip c) (strip e))]).
Proof.
  intros Ha Hc He Hcs Hes Hlib. unfold TelegramAddCommandEvent.execute, bind at 1.
  rewrite Hc. simpl. unfold bind at 1. rewrite He. simpl.
  rewrite Ha, !strip_truthy, Hcs, Hes. simpl.
  unfold bind, new_CommandHandler, bind, emit, add_events. simpl.
  rewrite Hlib. reflexivity.
Qed.

(** When [TelegramAddCommandEvent.execute] returns, all three inputs were
    there, the names were not blank and the library took the command. *)
Lemma add_command_event_returned (p p' : TelegramAddCommandEvent.Ports) (ctx : Ctx)
    (w w' : World) :
  TelegramAddCommandEvent.execute p ctx w = (Returned p', w') ->
  exists r c e,
    TelegramAddCommandEvent.application p = Some r /\
    TelegramAddCommandEvent.command_name p = Some c /\
    TelegramAddCommandEvent.event_name p = Some e /\
    all_space c = false /\ all_space e = false /\
    command_rejection (library w) (strip c) = None.
Proof.
  intros H.
  destruct (TelegramAddCommandEvent.command_name p) as [c|] eqn:Hc.
  2:{ rewrite (add_command_event_none_name p ctx w) in H by (left; exact Hc).
      discriminate H. }
  destruct (TelegramAddCommandEvent.event_name p) as [e|] eqn:He.
  2:{ rewrite (add_command_event_none_name p ctx w) in H by (right; exact He).
      discriminate H. }
  destruct (TelegramAddCommandEvent.application p) as [r|] eqn:Ha.
  2:{ rewrite (add_command_event_check_fails p ctx w c e Hc He) in H by (left; exact Ha).
      discriminate H. }
  destruct (all_space c) eqn:Hcs.
  { rewrite (add_command_event_check_fails p ctx w c e Hc He) in H by auto.
    discriminate H. }
  destruct (all_space e) eqn:Hes.
  { rewrite (add_command_event_check_fails p ctx w c e Hc He) in H by auto.
    discriminate H. }
  destruct (command_rejection (library w) (strip c)) as [msg|] eqn:Hlib.
  { rewrite (add_command_event_rejected p ctx w c e msg) in H;
      [discriminate H | rewrite Ha; reflexivity | auto..]. }
  exists r, c, e. auto 10.
Qed.

Lemma newest_handler_attached (w : World) (r : AppRef) (built : Event) (h : Handler) :
  newest_handler (attached w r built h) r = Some h.
Proof.
  unfold newest_handler. rewrite handlers_of_attached, List.map_app. simpl.
  apply List.last_last.
Qed.

(* ===================================================================== *)
(** ** The event payload *)
(* ===================================================================== *)

Lemma make_payload_dom (cmd txt : string) (chat_id : Z) (user_id : PyVal) (update : Update) :
  dom (make_payload cmd txt chat_id user_id update) = payload_keys.
Proof.
  unfold make_payload, payload_keys. rewrite !dom_insert_L, dom_empty_L. set_solver.
Qed.

Lemma make_payload_lookup (cmd txt : string) (chat_id : Z) (user_id : PyVal) (update : Update) :
  let d := make_payload cmd txt chat_id user_id update in
  d !! "command_name" = Some (VStr cmd) /\
  d !! "message_text" = Some (VStr txt) /\
  d !! "chat_id" = Some (VInt chat_id) /\
  d !! "user_id" = Some user_id /\
  d !! "update" = Some (VUpdate update).
Proof.
  unfold make_payload. repeat split; simplify_map_eq; reflexivity.
Qed.

(** C2.  A command registered by [TelegramAddCommandEvent] hands every
    listener a mapping with exactly the keys command_name, message_text,
    chat_id, user_id and update, holding the stripped registered command,
    the id of the update's effective chat, the id of its effective user or
    None, and the update itself. *)
Theorem command_payload_fields (p p' : TelegramAddCommandEvent.Ports) (ctx0 : Ctx)
    (w0 w1 : World) (r : AppRef) (c : string) (h : Handler)
    (ctx : Ctx) (update : Update) (context : CallbackContext) (w : World)
    (evs : list Event) (l : Listener) (payload : Dict) :
  TelegramAddCommandEvent.execute p ctx0 w0 = (Returned p', w1) ->
  TelegramAddCommandEvent.application p = Some r ->
  TelegramAddCommandEvent.command_name p = Some c ->
  newest_handler w1 r = Some h ->
  added w (snd (run_callback (handler_callback h) ctx update context w)) evs ->
  In (HostSetPayload l payload) evs ->
  payload_for (strip c) update payload.
Proof.
  intros Hex Ha Hc Hh Hadd Hin.
  destruct (add_command_event_returned p p' ctx0 w0 w1 Hex)
    as (r' & c' & e & Ha' & Hc' & He & Hcs & Hes & Hlib).
  rewrite Ha in Ha'. rewrite Hc in Hc'. injection Ha' as <-. injection Hc' as <-.
  rewrite (add_command_event_ok p ctx0 w0 r c e Ha Hc He Hcs Hes Hlib) in Hex.
  injection Hex as _ <-.
  rewrite newest_handler_attached in Hh. injection Hh as <-.
  simpl in Hadd.
  destruct (command_callback_payload _ _ _ _ _ _ _ _ _ Hadd Hin) as (chat & Hchat & _ & ->).
  pose proof (make_payload_lookup (strip c) (message_text_of context) (chat_ident chat)
                (user_id_value update) update) as (H1 & _ & H3 & H4 & H5).
  split.
  - apply make_payload_dom.
  - exact H1.
  - exists chat. auto.
  - exact H4.
  - exact H5.
Qed.

Lemma command_payload_fields_witness :
  payload_for "start" start_update start_payload.
Proof.
  apply (command_payload_fields start_ports
           (TelegramAddCommandEvent.mkPorts (Some 0) (Some " start ") (Some "on_start ") (Some 0))
           ∅ idle_world
           (attached idle_world 0
              (LibCommandHandler "start" (CommandClosure "start" "on_start"))
              (command_handler "start" "on_start"))
           0 " start " (command_handler "start" "on_start")
           start_ctx start_update start_context idle_world
           (assign_and_invoke start_payload [greeter; logger])
           logger start_payload).
  - reflexivity.
  - reflexivity.
  - reflexivity.
  - reflexivity.
  - reflexivity.
  - simpl. right. right. left. reflexivity.
Defined.

(* ===================================================================== *)
(** ** Looking up and invoking the listeners *)
(* ===================================================================== *)

Lemma listeners_for_found (ctx : Ctx) (evt : string) (events : Events) (ls : list Listener) :
  ctx !! "events" = Some events -> events !! evt = Some ls -> listeners_for ctx evt = ls.
Proof. intros H1 H2. unfold listeners_for. rewrite H1. simpl. rewrite H2. reflexivity. Qed.

Lemma listeners_for_missing (ctx : Ctx) (evt : string) :
  no_listener_list ctx evt -> listeners_for ctx evt = [].
Proof.
  unfold listeners_for. intros [H|(events & H1 & H2)].
  - rewrite H. simpl. rewrite lookup_empty. reflexivity.
  - rewrite H1. simpl. rewrite H2. reflexivity.
Qed.

(** The first listener whose body raises ends the loop: it is the last one
    invoked, and its exception is the callback's. *)
Lemma dispatch_stops_at_raise (payload : Dict) (before after : list Listener)
    (l : Listener) (e : Exn) :
  Forall (fun l => body_raises l = None) before ->
  body_raises l = Some e ->
  dispatch_outcome (before ++ l :: after) = Raised e /\
  dispatch_events payload (before ++ l :: after) = assign_and_invoke payload (before ++ [l]).
Proof.
  intros Hb Hl. induction Hb as [|l0 rest H0 _ [IHo IHe]]; simpl.
  - rewrite Hl. split; reflexivity.
  - rewrite H0. split; [exact IHo|]. rewrite IHe. reflexivity.
Qed.

(** C3, amended.  When a command fires, the listeners are those stored
    under the event name in the context's 'events' mapping; in list order,
    each one first gets the payload on its payload port and is then invoked.
    When every listener returns, all of them have been invoked and the
    callback returns.  A listener that raises ends the loop: the callback
    raises that exception and the listeners after it are not touched.  With
    no 'events' entry, or no list under the event name, nothing is invoked
    and the callback returns without error. *)
Theorem command_callback_invokes_listeners (cmd evt : string) (ctx : Ctx) (update : Update)
    (context : CallbackContext) (chat : Chat) (w : World) :
  effective_chat update = Some chat ->
  let payload := make_payload cmd (message_text_of context) (chat_ident chat)
                              (user_id_value update) update in
  (forall (events : Events) (ls : list Listener),
      ctx !! "events" = Some events ->
      events !! evt = Some ls ->
      (Forall (fun l => body_raises l = None) ls ->
       command_callback cmd evt ctx update context w
       = (Returned tt, add_events w (assign_and_invoke payload ls))) /\
      (forall before l after e,
          ls = before ++ l :: after ->
          Forall (fun l0 => body_raises l0 = None) before ->
          body_raises l = Some e ->
          command_callback cmd evt ctx update context w
          = (Raised e, add_events w (assign_and_invoke payload (before ++ [l]))))) /\
  (no_listener_list ctx evt ->
      command_callback cmd evt ctx update context w = (Returned tt, w)).
Proof.
  intros Hchat payload. split.
  - intros events ls H1 H2.
    rewrite (command_callback_run cmd evt ctx update context chat w Hchat).
    rewrite (listeners_for_found ctx evt events ls H1 H2). split.
    + intros Hret. pose proof (dispatch_all_return payload ls Hret) as [Ho He].
      subst payload. cbv zeta. rewrite Ho, He. reflexivity.
    + intros before l after e -> Hb Hl.
      pose proof (dispatch_stops_at_raise payload before after l e Hb Hl) as [Ho He].
      subst payload. cbv zeta. rewrite Ho, He. reflexivity.
  - intros Hmiss.
    rewrite (command_callback_run cmd evt ctx update context chat w Hchat).
    rewrite (listeners_for_missing ctx evt Hmiss). simpl.
    rewrite add_events_nil. reflexivity.
Qed.

Lemma command_callback_invokes_listeners_witness :
  command_callback "start" "on_start" start_ctx start_update start_context idle_world
  = (Returned tt,
     add_events idle_world
       [HostSetPayload greeter start_payload; HostDo greeter;
        HostSetPayload logger start_payload; HostDo logger]).
Proof.
  apply (proj1 (proj1 (command_callback_invokes_listeners "start" "on_start" start_ctx
                         start_update start_context (mkChat 42) idle_world eq_refl)
                  {[ "on_start" := [greeter; logger] ]} [greeter; logger]
                  eq_refl eq_refl)).
  repeat constructor.
Defined.

(** C3 as stated fails: with a listener in the middle of the list whose
    sub-graph raises, the listener after it is never invoked. *)
Lemma listener_after_a_raise_is_not_invoked :
  ~ invokes_every_listener "start" "on_start" crash_ctx start_update start_context
      idle_world.
Proof.
  intros H. specialize (H logger).
  rewrite (command_callback_run "start" "on_start" crash_ctx start_update start_context
             (mkChat 42) idle_world eq_refl) in H.
  assert (In logger (listeners_for crash_ctx "on_start")) as Hin
      by (right; right; left; reflexivity).
  apply H in Hin. cbn in Hin.
  repeat (destruct Hin as [Hin | Hin]; [discriminate Hin|]). destruct Hin.
Qed.

(* ===================================================================== *)
(** ** The text after the command *)
(* ===================================================================== *)

Lemma join_single_spaces (a b : string) (rest : list string) :
  join " " [] = "" /\
  join " " [a] = a /\
  join " " (a :: b :: rest) = String.append a (String.append " " (join " " (b :: rest))).
Proof. repeat split. Qed.

Lemma message_text_of_args (context : CallbackContext) :
  message_text_of context = join " " (default [] (args context)).
Proof.
  unfold message_text_of. destruct (args context) as [[|a l]|]; reflexivity.
Qed.

(** C5.  The message_text of the payload is the command's arguments joined
    with single spaces, and the empty string when there are none. *)
Theorem payload_message_text (cmd evt : string) (ctx : Ctx) (update : Update)
    (context : CallbackContext) (w : World) (evs : list Event)
    (l : Listener) (payload : Dict) :
  added w (snd (command_callback cmd evt ctx update context w)) evs ->
  In (HostSetPayload l payload) evs ->
  (forall words, args context = Some words ->
     payload !! "message_text" = Some (VStr (join " " words))) /\
  (args context = None \/ args context = Some [] ->
     payload !! "message_text" = Some (VStr "")).
Proof.
  intros Hadd Hin.
  destruct (command_callback_payload _ _ _ _ _ _ _ _ _ Hadd Hin) as (chat & _ & _ & ->).
  pose proof (make_payload_lookup cmd (message_text_of context) (chat_ident chat)
                (user_id_value update) update) as (_ & H2 & _).
  simpl in H2. rewrite H2, message_text_of_args. split.
  - intros words ->. reflexivity.
  - intros [-> | ->]; reflexivity.
Qed.

Lemma payload_message_text_witness :
  start_payload !! "message_text" = Some (VStr "now please").
Proof.
  apply (proj1 (payload_message_text "start" "on_start" start_ctx start_update start_context
                  idle_world (assign_and_invoke start_payload [greeter; logger])
                  greeter start_payload eq_refl (or_introl eq_refl))
           ["now"; "please"]).
  reflexivity.
Defined.

(* ===================================================================== *)
(** ** Replying to the message of an event *)
(* ===================================================================== *)

Lemma dict_with_entry_truthy (d : Dict) (k : string) (v : PyVal) :
  d !! k = Some v -> truthy (Some d) = true.
Proof.
  intros H. unfold truthy, truthy_option, truthy, truthy_dict.
  rewrite bool_decide_eq_false_2; [reflexivity|].
  intros ->. rewrite lookup_empty in H. discriminate H.
Qed.

Section ValidReply.

Variables (p : TelegramReplyToMessageEvent.Ports) (ctx : Ctx).
Variables (r : AppRef) (d : Dict) (u : Update) (chat : Chat) (original : Message).

Hypothesis has_application : TelegramReplyToMessageEvent.application p = Some r.
Hypothesis has_payload : TelegramReplyToMessageEvent.event_payload p = Some d.
Hypothesis has_update : d !! "update" = Some (VUpdate u).
Hypothesis has_chat : effective_chat u = Some chat.
Hypothesis has_message : effective_message u = Some original.

Lemma reply_execute_valid (w : World) :
  TelegramReplyToMessageEvent.execute p ctx w
  = (Returned p, scheduled w (reply_task p r chat original)).
Proof using has_application has_payload has_update has_chat has_message.
  unfold TelegramReplyToMessageEvent.execute.
  rewrite has_application, has_payload. simpl.
  rewrite (dict_with_entry_truthy d "update" _ has_update). simpl.
  unfold bind at 1. simpl. unfold dict_get. rewrite has_update. simpl.
  unfold bind at 1. simpl. unfold bind at 1. rewrite has_chat. simpl.
  unfold bind at 1. simpl. unfold bind at 1. rewrite has_message. simpl.
  reflexivity.
Qed.

Lemma send_reply_run (w : World) :
  _send_reply (reply_task p r chat original) w
  = (if bot_online w then Returned tt else Raised NetworkError,
     add_events w [LibSendMessage
                     (reply_args r chat (TelegramReplyToMessageEvent.reply_text p) original)]).
Proof using Type.
  unfold _send_reply, bind, send_message, bind, emit, add_events. simpl.
  destruct (bot_online w) eqn:Hon; rewrite ?Hon; reflexivity.
Qed.

End ValidReply.

(** C4.  With an application, a payload that carries an update and a reply
    text, the component queues one task, and that task, when the loop runs
    it, calls send_message exactly once, with the chat id of the update's
    effective chat, the reply text as given, parse mode HTML, and the id of
    the update's effective message as reply_to_message_id. *)
Theorem reply_send_message_arguments (p : TelegramReplyToMessageEvent.Ports) (ctx : Ctx)
    (r : AppRef) (d : Dict) (u : Update) (chat : Chat) (original : Message) (w : World) :
  TelegramReplyToMessageEvent.application p = Some r ->
  TelegramReplyToMessageEvent.event_payload p = Some d ->
  d !! "update" = Some (VUpdate u) ->
  effective_chat u = Some chat ->
  effective_message u = Some original ->
  let task := reply_task p r chat original in
  let sent := LibSendMessage
                {| via_bot := r;
                   to_chat_id := chat_ident chat;
                   with_text := TelegramReplyToMessageEvent.reply_text p;
                   parse_mode := Some HTML;
                   reply_to_message_id := Some (message_id original) |} in
  TelegramReplyToMessageEvent.execute p ctx w = (Returned p, scheduled w task) /\
  (forall w2, snd (_send_reply task w2) = add_events w2 [sent]) /\
  (loop_tasks w = [] ->
     trace (loop_step (scheduled w task)) = trace w ++ [LoopCreateTask task; sent] /\
     loop_tasks (loop_step (scheduled w task)) = []).
Proof.
  intros Ha Hp Hu Hc Hm task sent. split; [|split].
  - exact (reply_execute_valid p ctx r d u chat original Ha Hp Hu Hc Hm w).
  - intros w2. unfold task. rewrite send_reply_run. reflexivity.
  - intros Hidle. unfold loop_step, scheduled. simpl. rewrite Hidle. simpl.
    unfold task. rewrite send_reply_run. simpl.
    rewrite <- app_assoc. split; reflexivity.
Qed.

Lemma reply_send_message_arguments_witness :
  trace (loop_step (snd (TelegramReplyToMessageEvent.execute reply_ports ∅ idle_world)))
  = [LoopCreateTask (mkSendReply (Some 0) 42 (Some "<b>Hello</b>") 11); reply_sent].
Proof.
  pose proof (reply_send_message_arguments reply_ports ∅ 0 start_payload start_update
                (mkChat 42) start_message idle_world
                eq_refl eq_refl eq_refl eq_refl eq_refl) as (Hex & _ & Hloop).
  rewrite Hex. exact (proj1 (Hloop eq_refl)).
Defined.

(** [execute] never looks at the world: its outcome is the same whatever
    the bot's connection, the trace or the pending tasks. *)
Lemma reply_outcome_independent (p : TelegramReplyToMessageEvent.Ports) (ctx : Ctx)
    (w1 w2 : World) :
  fst (TelegramReplyToMessageEvent.execute p ctx w1)
  = fst (TelegramReplyToMessageEvent.execute p ctx w2).
Proof.
  unfold TelegramReplyToMessageEvent.execute.
  cbv [bind ret raise print emit getattr update_attr create_task].
  destruct (truthy (TelegramReplyToMessageEvent.application p)); [|reflexivity].
  destruct (truthy (TelegramReplyToMessageEvent.event_payload p)); [|reflexivity].
  simpl.
  destruct (TelegramReplyToMessageEvent.event_payload p) as [d|]; [|reflexivity].
  destruct (truthy (dict_get d "update")); [|reflexivity]. simpl.
  destruct (dict_get d "update") as [| | |u]; try reflexivity.
  destruct (effective_chat u); [|reflexivity].
  destruct (effective_message u); reflexivity.
Qed.

(** C7.  With valid inputs [execute] queues the send as a task and returns
    at once: the task is pending, no library call has been made, and the
    outcome is the same whether or not the bot can reach Telegram, although
    the send itself fails when it cannot. *)
Theorem reply_is_fire_and_forget (p : TelegramReplyToMessageEvent.Ports) (ctx : Ctx)
    (r : AppRef) (d : Dict) (u : Update) (chat : Chat) (original : Message) (w : World) :
  TelegramReplyToMessageEvent.application p = Some r ->
  TelegramReplyToMessageEvent.event_payload p = Some d ->
  d !! "update" = Some (VUpdate u) ->
  effective_chat u = Some chat ->
  effective_message u = Some original ->
  let task := reply_task p r chat original in
  let w' := snd (TelegramReplyToMessageEvent.execute p ctx w) in
  fst (TelegramReplyToMessageEvent.execute p ctx w) = Returned p /\
  added w w' [LoopCreateTask task] /\
  loop_tasks w' = loop_tasks w ++ [task] /\
  no_library_call w w' /\
  (forall w2, fst (TelegramReplyToMessageEvent.execute p ctx w2) = Returned p) /\
  (forall w2, bot_online w2 = false -> fst (_send_reply task w2) = Raised NetworkError).
Proof.
  intros Ha Hp Hu Hc Hm task w'.
  pose proof (reply_execute_valid p ctx r d u chat original Ha Hp Hu Hc Hm) as Hex.
  subst w'. rewrite (Hex w). simpl. repeat split.
  - unfold no_library_call, lib_calls, scheduled. simpl.
    rewrite List.filter_app. simpl. apply app_nil_r.
  - intros w2. rewrite (Hex w2). reflexivity.
  - intros w2 Hoff. unfold task. rewrite send_reply_run, Hoff. reflexivity.
Qed.

Lemma reply_is_fire_and_forget_witness :
  fst (TelegramReplyToMessageEvent.execute reply_ports ∅ offline_world) = Returned reply_ports.
Proof.
  exact (proj1 (reply_is_fire_and_forget reply_ports ∅ 0 start_payload start_update
                  (mkChat 42) start_message offline_world
                  eq_refl eq_refl eq_refl eq_refl eq_refl)).
Defined.

(* ===================================================================== *)
(** ** The application passes through the handler components *)
(* ===================================================================== *)

(** C6.  After [TelegramAddEchoHandler] or [TelegramAddCommandEvent] has
    executed, application_out holds the reference that came in on the
    application port: the same Application object, not a new one.  That
    object has one more handler, the one the component built, after those it
    had; no other application is touched and none is created. *)
Theorem application_passes_through (n n' : Node) (ctx : Ctx) (w w' : World) :
  attaches_handler n = true ->
  execute n ctx w = (Returned n', w') ->
  exists r h,
    application_in n = Some r /\
    application_out n' = Some r /\
    handler_built n h /\
    handlers_of w' r = handlers_of w r ++ [h] /\
    (forall r', r' <> r -> handlers_of w' r' = handlers_of w r') /\
    next_app w' = next_app w.
Proof.
  intros Hn Hex. destruct n as [p|p|p|p|p|p]; try discriminate Hn; unfold execute in Hex.
  - destruct (TelegramAddEchoHandler.application p) as [r|] eqn:Ha.
    + rewrite (add_echo_handler_ok p ctx w r Ha) in Hex. simpl in Hex.
      injection Hex as <- <-. exists r, echo_handler. simpl.
      repeat split; auto using handlers_of_attached, handlers_of_attached_other.
    + rewrite (add_echo_handler_no_application p ctx w Ha) in Hex. discriminate Hex.
  - destruct (TelegramAddCommandEvent.execute p ctx w) as [[p'|ex] w1] eqn:Hp;
      [|discriminate Hex].
    simpl in Hex. injection Hex as <- <-.
    destruct (add_command_event_returned p p' ctx w w1 Hp)
      as (r & c & e & Ha & Hc & He & Hcs & Hes & Hlib).
    rewrite (add_command_event_ok p ctx w r c e Ha Hc He Hcs Hes Hlib) in Hp.
    injection Hp as <- <-. exists r, (command_handler (strip c) (strip e)). simpl.
    repeat split; eauto using handlers_of_attached, handlers_of_attached_other.
Qed.

Lemma application_passes_through_witness :
  exists r h,
    application_in (AddEchoHandler echo_ports) = Some r /\
    application_out (AddEchoHandler (TelegramAddEchoHandler.mkPorts (Some 0) (Some 0))) = Some r /\
    handler_built (AddEchoHandler echo_ports) h /\
    handlers_of (snd (execute (AddEchoHandler echo_ports) ∅ started_world)) r
    = handlers_of started_world r ++ [h] /\
    (forall r', r' <> r ->
       handlers_of (snd (execute (AddEchoHandler echo_ports) ∅ started_world)) r'
       = handlers_of started_world r') /\
    next_app (snd (execute (AddEchoHandler echo_ports) ∅ started_world))
    = next_app started_world.
Proof.
  apply (application_passes_through (AddEchoHandler echo_ports)
           (AddEchoHandler (TelegramAddEchoHandler.mkPorts (Some 0) (Some 0))) ∅
           started_world
           (snd (execute (AddEchoHandler echo_ports) ∅ started_world))).
  - reflexivity.
  - reflexivity.
Defined.

Example handlers_after_echo :
  handlers_of (snd (execute (AddEchoHandler echo_ports) ∅ started_world)) 0
  = [command_handler "start" "on_start"; echo_handler].
Proof. reflexivity. Qed.

(* ===================================================================== *)
(** ** The echo callback *)
(* ===================================================================== *)

Lemma echo_with_text (update : Update) (context : CallbackContext) (w : World)
    (t : string) (chat : Chat) :
  incoming_text update = Some t ->
  effective_chat update = Some chat ->
  echo update context w
  = (if bot_online w then Returned tt else Raised NetworkError,
     add_events w [LibSendMessage (mkSend (bot context) (chat_ident chat) (Some t) None None)]).
Proof.
  unfold incoming_text, echo. intros Ht Hc.
  destruct (message update) as [m|]; [|discriminate Ht]. simpl.
  destruct (text m) as [[|a t']|]; try discriminate Ht. simpl in *.
  injection Ht as <-.
  unfold bind at 1. rewrite Hc. simpl.
  unfold send_message, bind, emit, add_events. simpl.
  destruct (bot_online w) eqn:Hon; rewrite ?Hon; reflexivity.
Qed.

Lemma echo_without_text (update : Update) (context : CallbackContext) (w : World) :
  incoming_text update = None ->
  echo update context w = (Returned tt, w).
Proof.
  unfold incoming_text, echo. intros Ht.
  destruct (message update) as [m|]; [|reflexivity]. simpl.
  destruct (text m) as [[|a t']|]; try reflexivity. discriminate Ht.
Qed.

(** C8.  For an update whose message, if any, belongs to a chat: the echo
    callback sends exactly one message, the incoming text to the update's
    effective chat, when the update has a message with non-empty text, and
    sends nothing otherwise; so it sends if and only if there is such a
    text.  The handler keeps the updates that the library's COMMAND filter
    accepts away from the callback, and nothing is sent for them either. *)
Theorem echo_sends_incoming_text (update : Update) (context : CallbackContext)
    (ctx : Ctx) (w : World) :
  (is_Some (message update) -> is_Some (effective_chat update)) ->
  let w' := snd (echo update context w) in
  (exists evs, added w w' evs /\
     sends evs =
       match incoming_text update, effective_chat update with
       | Some t, Some chat => [mkSend (bot context) (chat_ident chat) (Some t) None None]
       | _, _ => []
       end) /\
  (lib_calls w' <> lib_calls w <->
     exists m t, message update = Some m /\ text m = Some t /\ t <> "") /\
  (incoming_text update = None -> w' = w) /\
  (command_filter (library w) update = true ->
     snd (handle_message (FAnd TEXT (FNot COMMAND)) EchoClosure ctx update context w) = w).
Proof.
  intros Hinv w'. subst w'.
  assert (command_filter (library w) update = true ->
          snd (handle_message (FAnd TEXT (FNot COMMAND)) EchoClosure ctx update context w) = w)
    as Hfilter.
  { intros Hcmd. unfold handle_message. simpl. rewrite Hcmd, andb_false_r. reflexivity. }
  destruct (incoming_text update) as [t|] eqn:Ht.
  - assert (exists m, message update = Some m /\ text m = Some t /\ t <> "")
      as (m & Hm & Htm & Hne).
    { unfold incoming_text in Ht. destruct (message update) as [m|]; [|discriminate Ht].
      exists m. destruct (text m) as [t'|]; [|discriminate Ht].
      destruct t'; simpl in Ht; [discriminate Ht|]. injection Ht as <-. auto. }
    destruct (Hinv (ex_intro _ m Hm)) as [chat Hchat].
    rewrite (echo_with_text update context w t chat Ht Hchat). simpl. rewrite Hchat.
    repeat split.
    + eexists. split; [apply added_add_events | reflexivity].
    + intros _. eauto.
    + intros _. rewrite lib_calls_add_events. simpl.
      intros Heq. symmetry in Heq.
      apply (f_equal (@List.length Event)) in Heq.
      rewrite List.length_app in Heq. simpl in Heq. lia.
    + discriminate.
    + exact Hfilter.
  - rewrite (echo_without_text update context w Ht). simpl. repeat split.
    + exists []. split; [unfold added; symmetry; apply app_nil_r | reflexivity].
    + intros H. contradiction H. reflexivity.
    + intros (m & t & Hm & Htm & Hne). unfold incoming_text in Ht.
      rewrite Hm, Htm in Ht. destruct t; [contradiction Hne; reflexivity | discriminate Ht].
    + exact Hfilter.
Qed.

Lemma echo_sends_incoming_text_witness :
  exists evs,
    added idle_world (snd (echo hello_update (mkContext 0 None) idle_world)) evs /\
    sends evs = [mkSend 0 42 (Some "hello") None None].
Proof.
  apply (proj1 (echo_sends_incoming_text hello_update (mkContext 0 None) ∅ idle_world
                  (fun _ => ex_intro _ (mkChat 42) eq_refl))).
Defined.

Example echo_not_for_commands :
  snd (handle_message (FAnd TEXT (FNot COMMAND)) EchoClosure ∅ start_update start_context
         idle_world) = idle_world /\
  sends (trace (snd (handle_message (FAnd TEXT (FNot COMMAND)) EchoClosure ∅ hello_update
                       start_context idle_world)))
  = [mkSend 0 42 (Some "hello") None None].
Proof. split; reflexivity. Qed.

(* ===================================================================== *)
(** ** Unpacking a payload *)
(* ===================================================================== *)

Lemma or_else_empty_lookup (payload : option Dict) (k : string) :
  dict_get (or_else payload ∅) k = payload_value payload k.
Proof.
  unfold or_else, payload_value, dict_get. destruct payload as [d|].
  - destruct (truthy d) eqn:Hd; [reflexivity|].
    unfold truthy, truthy_dict in Hd. apply negb_false_iff, bool_decide_eq_true_1 in Hd.
    subst d. rewrite lookup_empty. reflexivity.
  - rewrite lookup_empty. reflexivity.
Qed.

Lemma or_else_string (o : option string) :
  or_else o "" = match o with Some s => s | None => "" end.
Proof. destruct o as [[|a s]|]; reflexivity. Qed.

(** C9, amended.  [TelegramParsePayload.execute] returns without raising,
    and without touching the world, on every payload, None and dictionaries
    that lack any of the keys included, except one kind: a payload that
    holds under 'update' a truthy value that is not an Update object, on
    which reading effective_user raises AttributeError.  When it returns,
    chat_id, user_id, message_text, update_obj and command_name hold the
    payload's value under their key, or None, and first_name holds the
    first name of the update's effective user, or the empty string. *)
Theorem parse_payload_outcome (p : TelegramParsePayload.Ports) (ctx : Ctx) (w : World) :
  let payload := TelegramParsePayload.event_payload p in
  (truthy_non_update (payload_value payload "update") = false ->
   TelegramParsePayload.execute p ctx w
   = (Returned {| TelegramParsePayload.event_payload := payload;
                  TelegramParsePayload.chat_id := payload_value payload "chat_id";
                  TelegramParsePayload.user_id := payload_value payload "user_id";
                  TelegramParsePayload.message_text := payload_value payload "message_text";
                  TelegramParsePayload.update_obj := payload_value payload "update";
                  TelegramParsePayload.command_name := payload_value payload "command_name";
                  TelegramParsePayload.first_name := VStr (payload_first_name payload) |},
      w)) /\
  (truthy_non_update (payload_value payload "update") = true ->
   TelegramParsePayload.execute p ctx w
   = (Raised (AttributeError (type_name_of (payload_value payload "update"))
                             "effective_user"), w)).
Proof.
  intros payload. unfold TelegramParsePayload.execute.
  fold payload. rewrite !or_else_empty_lookup.
  unfold payload_first_name.
  cbv [bind ret raise getattr update_attr].
  destruct (payload_value payload "update") as [|z|s|u]; simpl.
  - split; [reflexivity | discriminate].
  - change (truthy (VInt z)) with (negb (z =? 0)%Z).
    destruct (negb (z =? 0)%Z); split; try discriminate; reflexivity.
  - change (truthy (VStr s)) with (truthy s). change (truthy_string s) with (truthy s).
    destruct (truthy s); split; try discriminate; reflexivity.
  - split; [|discriminate]. intros _.
    destruct (effective_user u) as [usr|]; simpl; [|reflexivity].
    rewrite or_else_string. reflexivity.
Qed.

Lemma parse_payload_outcome_witness :
  TelegramParsePayload.execute (parse_ports (Some {[ "update" := VInt 0 ]})) ∅ idle_world
  = (Returned (TelegramParsePayload.mkPorts (Some {[ "update" := VInt 0 ]})
                 VNone VNone VNone (VInt 0) VNone (VStr "")),
     idle_world).
Proof.
  exact (proj1 (parse_payload_outcome (parse_ports (Some {[ "update" := VInt 0 ]})) ∅
                  idle_world) eq_refl).
Defined.

(** C9 as stated fails: a payload whose 'update' is a non-empty string makes
    [execute] raise. *)
Lemma parse_payload_raises_on_text_update :
  ~ returns (TelegramParsePayload.execute
               (parse_ports (Some {[ "update" := VStr "text" ]})) ∅ idle_world).
Proof. intros [p' H]. vm_compute in H. discriminate H. Qed.

Example parse_start_payload :
  fst (TelegramParsePayload.execute (parse_ports (Some start_payload)) ∅ idle_world)
  = Returned (TelegramParsePayload.mkPorts (Some start_payload)
                (VInt 42) (VInt 5) (VStr "now please") (VUpdate start_update)
                (VStr "start") (VStr "Ann")).
Proof. reflexivity. Qed.

Example parse_no_payload :
  fst (TelegramParsePayload.execute (parse_ports None) ∅ idle_world)
  = Returned (TelegramParsePayload.mkPorts None VNone VNone VNone VNone VNone (VStr "")).
Proof. reflexivity. Qed.

(* ===================================================================== *)
(** ** Stripping the command and event names *)
(* ===================================================================== *)

(** C10.  [TelegramAddCommandEvent] strips both names before it checks and
    uses them: the stripped names are the names without the whitespace
    around them, the CommandHandler is built for the stripped command, and
    when the library accepts that command the handler is attached and its
    callback looks the listeners up under the stripped event name.  A name
    made of whitespace characters only (any of Python's, ASCII or not) is
    rejected by the presence check (ValueError).  A name that is None fails
    earlier, at the strip call (AttributeError), whatever the other inputs
    are. *)
Theorem names_stripped_before_check (p : TelegramAddCommandEvent.Ports) (ctx : Ctx)
    (w : World) :
  (forall r c e,
      TelegramAddCommandEvent.application p = Some r ->
      TelegramAddCommandEvent.command_name p = Some c ->
      TelegramAddCommandEvent.event_name p = Some e ->
      ~ whitespace_only c ->
      ~ whitespace_only e ->
      let cmd := strip c in
      let evt := strip e in
      stripped_of c cmd /\ stripped_of e evt /\
      (command_rejection (library w) cmd = None ->
       TelegramAddCommandEvent.execute p ctx w
       = (Returned (TelegramAddCommandEvent.mkPorts (Some r) (Some c) (Some e) (Some r)),
          attached w r (LibCommandHandler cmd (CommandClosure cmd evt))
                   (CommandHandler cmd (CommandClosure cmd evt)))) /\
      (forall msg, command_rejection (library w) cmd = Some msg ->
       TelegramAddCommandEvent.execute p ctx w
       = (Raised (ValueError msg),
          add_events w [LibCommandHandler cmd (CommandClosure cmd evt)])) /\
      (forall ctx' update context chat w1,
          effective_chat update = Some chat ->
          run_callback (CommandClosure cmd evt) ctx' update context w1
          = (dispatch_outcome (listeners_for ctx' evt),
             add_events w1
               (dispatch_events
                  (make_payload cmd (message_text_of context) (chat_ident chat)
                                (user_id_value update) update)
                  (listeners_for ctx' evt))))) /\
  (forall c e,
      TelegramAddCommandEvent.command_name p = Some c ->
      TelegramAddCommandEvent.event_name p = Some e ->
      whitespace_only c \/ whitespace_only e ->
      TelegramAddCommandEvent.execute p ctx w
      = (Raised (ValueError "Application, command_name, and event_name are required."), w)) /\
  (TelegramAddCommandEvent.command_name p = None \/
   TelegramAddCommandEvent.event_name p = None ->
      TelegramAddCommandEvent.execute p ctx w
      = (Raised (AttributeError "NoneType" "strip"), w)).
Proof.
  split; [|split].
  - intros r c e Ha Hc He Hcs Hes cmd evt. subst cmd evt.
    rewrite <- all_space_iff in Hcs, Hes.
    apply not_true_is_false in Hcs, Hes.
    split; [apply strip_stripped_of|].
    split; [apply strip_stripped_of|].
    split; [exact (add_command_event_ok p ctx w r c e Ha Hc He Hcs Hes)|].
    split.
    + intros msg Hmsg. apply (add_command_event_rejected p ctx w c e msg); auto.
      rewrite Ha. reflexivity.
    + intros ctx' update context chat w1 Hchat. simpl.
      exact (command_callback_run (strip c) (strip e) ctx' update context chat w1 Hchat).
  - intros c e Hc He H.
    apply (add_command_event_check_fails p ctx w c e Hc He).
    rewrite !all_space_iff. tauto.
  - apply add_command_event_none_name.
Qed.

Lemma names_stripped_before_check_witness :
  TelegramAddCommandEvent.execute padded_ports ∅ idle_world
  = (Returned (TelegramAddCommandEvent.mkPorts (Some 0) (TelegramAddCommandEvent.command_name
                                                            padded_ports)
                 (TelegramAddCommandEvent.event_name padded_ports) (Some 0)),
     attached idle_world 0 (LibCommandHandler "start" (CommandClosure "start" "on_start"))
              (CommandHandler "start" (CommandClosure "start" "on_start"))).
Proof.
  apply (proj1 (proj2 (proj2
           (proj1 (names_stripped_before_check padded_ports ∅ idle_world)
              0 (String.append (utf8 0x2003) (String.append "start" (utf8 0x3000)))
              (String.append " on_start" (utf8 0xA0))
              eq_refl eq_refl eq_refl
              (not_whitespace_only
                 (String.append (utf8 0x2003) (String.append "start" (utf8 0x3000))) eq_refl)
              (not_whitespace_only (String.append " on_start" (utf8 0xA0)) eq_refl))))).
  reflexivity.
Defined.

Example unwired_command_fails_at_strip :
  TelegramAddCommandEvent.execute unwired_command ∅ idle_world
  = (Raised (AttributeError "NoneType" "strip"), idle_world).
Proof. reflexivity. Qed.

Example unaccepted_command_raises :
  fst (TelegramAddCommandEvent.execute
         (TelegramAddCommandEvent.mkPorts (Some 0) (Some " two words ") (Some "on_start") None)
         ∅ idle_world)
  = Raised (ValueError "Command `two words` is not a valid bot command").
Proof. reflexivity. Qed.

Example blank_command_rejected :
  fst (TelegramAddCommandEvent.execute
         (TelegramAddCommandEvent.mkPorts (Some 0) (Some "   ") (Some "on_start") None)
         ∅ idle_world)
  = Raised (ValueError "Application, command_name, and event_name are required.").
Proof. reflexivity. Qed.

Example start_registered_stripped :
  handlers_of (snd (TelegramAddCommandEvent.execute start_ports ∅ idle_world)) 0
  = [CommandHandler "start" (CommandClosure "start" "on_start")].
Proof. reflexivity. Qed.

Example strip_examples :
  strip " start " = "start" /\ strip "on_start " = "on_start" /\
  strip "two words" = "two words" /\ strip "   " = "" /\
  strip (String.append (utf8 0x2003) (String.append "start" (utf8 0x3000))) = "start" /\
  strip (String.append (utf8 0x85) (utf8 0x2029)) = "".
Proof. repeat split. Qed.

(** The zero-width space, the Mongolian vowel separator and ESC are not
    whitespace for [str.strip()]. *)
Example strip_keeps_other_characters :
  strip (String.append (utf8 0x200B) "start") = String.append (utf8 0x200B) "start" /\
  strip (String.append "start" (utf8 0x180E)) = String.append "start" (utf8 0x180E) /\
  strip (String.append (utf8 0x1B) "start") = String.append (utf8 0x1B) "start".
Proof. repeat split. Qed.

(* ===================================================================== *)
(** ** Building and running the application *)
(* ===================================================================== *)

Lemma init_app_ok (p : TelegramInitApp.Ports) (ctx : Ctx) (w : World) :
  truthy (TelegramInitApp.telegram_token p) = true ->
  TelegramInitApp.execute p ctx w
  = (Returned (TelegramInitApp.mkPorts (TelegramInitApp.telegram_token p) (Some (next_app w))),
     mkWorld (<[next_app w := []]> (apps w)) (S (next_app w))
             (trace w ++ [LibBuild (TelegramInitApp.telegram_token p)])
             (loop_tasks w) (bot_online w) (library w)).
Proof. intros H. unfold TelegramInitApp.execute. rewrite H. reflexivity. Qed.

Lemma run_app_ok (p : TelegramRunApp.Ports) (ctx : Ctx) (w : World) (r : AppRef) :
  TelegramRunApp.application p = Some r ->
  TelegramRunApp.execute p ctx w
  = (match polling_error (library w) r with
     | None => Returned p
     | Some e => Raised e
     end, add_events w [LibRunPolling r]).
Proof.
  intros H. unfold TelegramRunApp.execute. rewrite H. simpl.
  unfold bind, run_polling, bind, emit, add_events. simpl.
  destruct (polling_error (library w) r); reflexivity.
Qed.

(** X1.  [TelegramInitApp] hands any non-empty token to the builder as it
    is, blank ones included: nothing is stripped.  The one library call is
    the build; the application port gets a new application that has no
    handlers, and the handlers of every other application stay as they
    were. *)
Theorem init_app_passes_token_verbatim (p : TelegramInitApp.Ports) (ctx : Ctx) (w : World)
    (t : string) :
  TelegramInitApp.telegram_token p = Some t ->
  t <> "" ->
  let w' := snd (TelegramInitApp.execute p ctx w) in
  fst (TelegramInitApp.execute p ctx w)
  = Returned (TelegramInitApp.mkPorts (Some t) (Some (next_app w))) /\
  added w w' [LibBuild (Some t)] /\
  handlers_of w' (next_app w) = [] /\
  (forall r, r <> next_app w -> handlers_of w' r = handlers_of w r) /\
  loop_tasks w' = loop_tasks w.
Proof.
  intros Ht Hne w'. subst w'.
  rewrite (init_app_ok p ctx w) by (rewrite Ht; destruct t; [contradiction|reflexivity]).
  rewrite Ht. simpl. repeat split.
  - unfold handlers_of. simpl. rewrite lookup_insert_eq. reflexivity.
  - intros r Hr. unfold handlers_of. simpl. rewrite lookup_insert_ne by congruence.
    reflexivity.
Qed.

Lemma init_app_passes_token_verbatim_witness :
  added idle_world
    (snd (TelegramInitApp.execute (TelegramInitApp.mkPorts (Some "  ") None) ∅ idle_world))
    [LibBuild (Some "  ")].
Proof.
  apply (init_app_passes_token_verbatim (TelegramInitApp.mkPorts (Some "  ") None) ∅
           idle_world "  ").
  - reflexivity.
  - discriminate.
Defined.

Lemma no_name_false (o : option string) :
  no_name o = false -> exists s, o = Some s /\ all_space s = false.
Proof. destruct o as [s|]; simpl; [eauto | discriminate]. Qed.

(** With its required inputs present, a checking component goes on to
    call the library. *)
Lemma checks_reach_library (n : Node) (ctx : Ctx) (w : World) :
  checks_inputs n = true ->
  required_input_absent n = false ->
  exists call rest,
    is_lib_call call = true /\
    Forall (fun ev => is_lib_call ev = true) rest /\
    added w (snd (execute n ctx w)) (call :: rest).
Proof.
  intros Hn Hreq. destruct n as [p|p|p|p|p|p]; try discriminate Hn;
    unfold execute; simpl in Hreq.
  - apply negb_false_iff in Hreq. rewrite (init_app_ok p ctx w Hreq).
    eexists _, []. repeat split; constructor.
  - apply negb_false_iff in Hreq.
    destruct (TelegramRunApp.application p) as [r|] eqn:Ha; [|discriminate Hreq].
    rewrite (run_app_ok p ctx w r Ha).
    destruct (polling_error (library w) r); eexists _, []; repeat split; constructor.
  - apply orb_false_iff in Hreq as [Hreq He]. apply orb_false_iff in Hreq as [Ha Hc].
    apply negb_false_iff in Ha.
    destruct (no_name_false _ Hc) as (c & Hcn & Hcs).
    destruct (no_name_false _ He) as (e & Hen & Hes).
    destruct (command_rejection (library w) (strip c)) as [msg|] eqn:Hlib.
    + rewrite (add_command_event_rejected p ctx w c e msg Ha Hcn Hen Hcs Hes Hlib).
      eexists _, []. repeat split; constructor.
    + destruct (TelegramAddCommandEvent.application p) as [r|] eqn:Hap; [|discriminate Ha].
      rewrite (add_command_event_ok p ctx w r c e Hap Hcn Hen Hcs Hes Hlib).
      eexists _, [_]. repeat split; repeat constructor.
Qed.

Lemma checks_raise_when_absent (n : Node) (ctx : Ctx) (w : World) :
  checks_inputs n = true ->
  required_input_absent n = true ->
  raises (execute n ctx w) /\ snd (execute n ctx w) = w.
Proof.
  intros Hn Hreq. destruct n as [p|p|p|p|p|p]; try discriminate Hn;
    unfold execute; simpl in Hreq.
  - apply negb_true_iff in Hreq. rewrite (init_app_no_token p ctx w Hreq).
    split; [eexists|]; reflexivity.
  - apply negb_true_iff in Hreq. rewrite (run_app_no_application p ctx w Hreq).
    split; [eexists|]; reflexivity.
  - destruct (TelegramAddCommandEvent.command_name p) as [c|] eqn:Hc.
    2:{ rewrite (add_command_event_none_name p ctx w) by (left; exact Hc).
        split; [eexists|]; reflexivity. }
    destruct (TelegramAddCommandEvent.event_name p) as [e|] eqn:He.
    2:{ rewrite (add_command_event_none_name p ctx w) by (right; exact He).
        split; [eexists|]; reflexivity. }
    rewrite (add_command_event_check_fails p ctx w c e Hc He).
    + split; [eexists|]; reflexivity.
    + simpl in Hreq. apply orb_true_iff in Hreq as [Hreq|Hreq]; [|auto].
      apply orb_true_iff in Hreq as [Hreq|Hreq]; [|auto].
      left. apply truthy_option_appref. apply negb_true_iff. exact Hreq.
Qed.

Lemma library_call_shows (w w' : World) (call : Event) (rest : list Event) :
  is_lib_call call = true -> added w w' (call :: rest) -> ~ no_library_call w w'.
Proof.
  unfold added, no_library_call, lib_calls. intros Hcall -> Heq.
  rewrite List.filter_app in Heq. simpl in Heq. rewrite Hcall in Heq.
  apply (f_equal (@List.length Event)) in Heq.
  rewrite List.length_app in Heq. simpl in Heq. lia.
Qed.

(** X2.  [TelegramInitApp], [TelegramRunApp] and [TelegramAddCommandEvent]
    fail on their own check, raising before any call into the library,
    exactly when a required input is absent (no token; no application; no
    application, or a command or event name that is unset or blank).  With
    every required input present they go on to call the library: whatever
    happens then, the trace starts growing with a library call. *)
Theorem checks_raise_exactly_when_absent (n : Node) (ctx : Ctx) (w : World) :
  checks_inputs n = true ->
  (raises_without_library_call n ctx w <-> required_input_absent n = true) /\
  (required_input_absent n = false ->
   exists call rest,
     is_lib_call call = true /\ added w (snd (execute n ctx w)) (call :: rest)).
Proof.
  intros Hn. split; [split|].
  - intros [_ Hno]. destruct (required_input_absent n) eqn:Hreq; [reflexivity|].
    destruct (checks_reach_library n ctx w Hn Hreq) as (call & rest & Hcall & _ & Hadd).
    destruct (library_call_shows _ _ call rest Hcall Hadd Hno).
  - intros Hreq. destruct (checks_raise_when_absent n ctx w Hn Hreq) as [Hr Hw].
    split; [exact Hr|]. rewrite Hw. apply no_library_call_refl.
  - intros Hreq.
    destruct (checks_reach_library n ctx w Hn Hreq) as (call & rest & Hcall & _ & Hadd).
    eauto.
Qed.

Lemma checks_raise_exactly_when_absent_witness :
  exists call rest,
    is_lib_call call = true /\
    added started_world
      (snd (execute (AddCommandEvent
                       (TelegramAddCommandEvent.mkPorts (Some 0) (Some " two words ")
                          (Some "on_start") None)) ∅ started_world))
      (call :: rest).
Proof.
  apply (proj2 (checks_raise_exactly_when_absent
                  (AddCommandEvent
                     (TelegramAddCommandEvent.mkPorts (Some 0) (Some " two words ")
                        (Some "on_start") None)) ∅ started_world eq_refl)).
  reflexivity.
Defined.

(* ===================================================================== *)
(** ** The reply component on every input *)
(* ===================================================================== *)

(** X3.  With an application and a non-empty payload that has no update
    (the key is missing, or holds None), [TelegramReplyToMessageEvent]
    prints its third diagnostic and returns normally: nothing is scheduled
    and the library is not called. *)
Theorem reply_without_update (p : TelegramReplyToMessageEvent.Ports) (ctx : Ctx) (w : World)
    (r : AppRef) (d : Dict) :
  TelegramReplyToMessageEvent.application p = Some r ->
  TelegramReplyToMessageEvent.event_payload p = Some d ->
  d <> ∅ ->
  d !! "update" = None \/ d !! "update" = Some VNone ->
  TelegramReplyToMessageEvent.execute p ctx w
  = (Returned p,
     add_events w
       [Print "[TelegramReplyToMessage] No 'update' in event_payload, cannot reply."]).
Proof.
  intros Ha Hp Hd Hu. unfold TelegramReplyToMessageEvent.execute.
  rewrite Ha, Hp. simpl.
  assert (truthy (Some d) = true) as Htd.
  { unfold truthy, truthy_option, truthy, truthy_dict.
    rewrite bool_decide_eq_false_2 by exact Hd. reflexivity. }
  rewrite Htd. simpl.
  unfold bind at 1. simpl. unfold dict_get.
  destruct Hu as [-> | ->]; reflexivity.
Qed.

Lemma reply_without_update_witness :
  TelegramReplyToMessageEvent.execute
    (TelegramReplyToMessageEvent.mkPorts (Some 0) (Some {[ "chat_id" := VInt 42 ]}) (Some "hi"))
    ∅ idle_world
  = (Returned (TelegramReplyToMessageEvent.mkPorts (Some 0) (Some {[ "chat_id" := VInt 42 ]})
                 (Some "hi")),
     add_events idle_world
       [Print "[TelegramReplyToMessage] No 'update' in event_payload, cannot reply."]).
Proof.
  apply (reply_without_update
           (TelegramReplyToMessageEvent.mkPorts (Some 0) (Some {[ "chat_id" := VInt 42 ]})
              (Some "hi"))
           ∅ idle_world 0 {[ "chat_id" := VInt 42 ]}).
  - reflexivity.
  - reflexivity.
  - intros H. apply (f_equal (fun m : Dict => m !! "chat_id")) in H. vm_compute in H.
    discriminate H.
  - left. reflexivity.
Defined.

(** X4.  An update that has no effective chat, or no effective message,
    makes [TelegramReplyToMessageEvent] fail with an AttributeError on None
    before anything is printed or scheduled. *)
Theorem reply_update_without_chat_or_message (p : TelegramReplyToMessageEvent.Ports)
    (ctx : Ctx) (w : World) (r : AppRef) (d : Dict) (u : Update) :
  TelegramReplyToMessageEvent.application p = Some r ->
  TelegramReplyToMessageEvent.event_payload p = Some d ->
  d !! "update" = Some (VUpdate u) ->
  effective_chat u = None \/ effective_message u = None ->
  TelegramReplyToMessageEvent.execute p ctx w
  = (Raised (AttributeError "NoneType"
               match effective_chat u with
               | Some _ => "message_id"
               | None => "id"
               end), w).
Proof.
  intros Ha Hp Hu Hmiss. unfold TelegramReplyToMessageEvent.execute.
  rewrite Ha, Hp. simpl.
  rewrite (dict_with_entry_truthy d "update" _ Hu). simpl.
  cbv [bind ret raise getattr update_attr]. unfold dict_get. rewrite Hu. simpl.
  destruct (effective_chat u) as [chat|]; [|reflexivity].
  destruct Hmiss as [Hc|Hm]; [discriminate Hc|]. rewrite Hm. reflexivity.
Qed.

Lemma reply_update_without_chat_or_message_witness :
  TelegramReplyToMessageEvent.execute
    (TelegramReplyToMessageEvent.mkPorts (Some 0) (Some {[ "update" := VUpdate bare_update ]})
       (Some "hi"))
    ∅ idle_world
  = (Raised (AttributeError "NoneType" "message_id"), idle_world).
Proof.
  apply (reply_update_without_chat_or_message
           (TelegramReplyToMessageEvent.mkPorts (Some 0)
              (Some {[ "update" := VUpdate bare_update ]}) (Some "hi"))
           ∅ idle_world 0 {[ "update" := VUpdate bare_update ]} bare_update).
  - reflexivity.
  - reflexivity.
  - reflexivity.
  - right. reflexivity.
Defined.

(** Every way [TelegramReplyToMessageEvent.execute] can end. *)
Lemma reply_execute_cases (p : TelegramReplyToMessageEvent.Ports) (ctx : Ctx) (w : World) :
  (exists line, TelegramReplyToMessageEvent.execute p ctx w
                = (Returned p, add_events w [Print line])) \/
  (exists e, TelegramReplyToMessageEvent.execute p ctx w = (Raised e, w)) \/
  (exists co, TelegramReplyToMessageEvent.execute p ctx w = (Returned p, scheduled w co)).
Proof.
  unfold TelegramReplyToMessageEvent.execute.
  destruct (truthy (TelegramReplyToMessageEvent.application p)); simpl;
    [|left; eexists; reflexivity].
  destruct (truthy (TelegramReplyToMessageEvent.event_payload p)); simpl;
    [|left; eexists; reflexivity].
  cbv [bind ret raise getattr update_attr].
  destruct (TelegramReplyToMessageEvent.event_payload p) as [d|];
    [|right; left; eexists; reflexivity].
  destruct (truthy (dict_get d "update")); simpl; [|left; eexists; reflexivity].
  destruct (dict_get d "update") as [| | |u]; try (right; left; eexists; reflexivity).
  destruct (effective_chat u); [|right; left; eexists; reflexivity].
  destruct (effective_message u); [|right; left; eexists; reflexivity].
  right. right. eexists. reflexivity.
Qed.

(** X5.  Whatever its inputs, [TelegramReplyToMessageEvent.execute] itself
    never calls the wrapped library and never changes an application; it
    leaves the pending tasks as they were or adds exactly one, and it adds
    one only when it returns normally. *)
Theorem reply_execute_never_calls_library (p : TelegramReplyToMessageEvent.Ports)
    (ctx : Ctx) (w : World) :
  let w' := snd (TelegramReplyToMessageEvent.execute p ctx w) in
  no_library_call w w' /\
  apps w' = apps w /\
  (loop_tasks w' = loop_tasks w \/
   exists co, loop_tasks w' = loop_tasks w ++ [co] /\
              fst (TelegramReplyToMessageEvent.execute p ctx w) = Returned p).
Proof.
  intros w'. subst w'.
  destruct (reply_execute_cases p ctx w) as [[line H] | [[e H] | [co H]]]; rewrite H; simpl.
  - split; [apply no_library_call_print|]. auto.
  - split; [apply no_library_call_refl|]. auto.
  - split; [|split; [reflexivity|right; exists co; auto]].
    unfold no_library_call, lib_calls, scheduled. simpl.
    rewrite List.filter_app. simpl. apply app_nil_r.
Qed.

(* ===================================================================== *)
(** ** Unpacking never touches the world *)
(* ===================================================================== *)

Lemma parse_execute_cases (p : TelegramParsePayload.Ports) (ctx : Ctx) (w : World) :
  let v := payload_value (TelegramParsePayload.event_payload p) "update" in
  (truthy_non_update v = false /\
   exists p', TelegramParsePayload.execute p ctx w = (Returned p', w)) \/
  (truthy_non_update v = true /\
   TelegramParsePayload.execute p ctx w
   = (Raised (AttributeError (type_name_of v) "effective_user"), w)).
Proof.
  intros v. unfold TelegramParsePayload.execute.
  rewrite !or_else_empty_lookup. fold v.
  cbv [bind ret raise getattr update_attr].
  destruct v as [|z|s|u]; simpl.
  - left. split; [reflexivity | eexists; reflexivity].
  - change (truthy (VInt z)) with (negb (z =? 0)%Z). destruct (negb (z =? 0)%Z).
    + right. split; reflexivity.
    + left. split; [reflexivity | eexists; reflexivity].
  - change (truthy (VStr s)) with (truthy s). change (truthy_string s) with (truthy s).
    destruct (truthy s).
    + right. split; reflexivity.
    + left. split; [reflexivity | eexists; reflexivity].
  - left. split; [reflexivity|].
    destruct (effective_user u); simpl; eexists; reflexivity.
Qed.

(** X6.  [TelegramParsePayload.execute] leaves the world exactly as it was
    on every input, failing ones included, and it fails in one case only:
    the payload holds under 'update' a truthy value that is not an Update
    object (a non-zero number, a non-empty string), on which the access to
    effective_user raises AttributeError. *)
Theorem parse_payload_fails_only_on_foreign_update (p : TelegramParsePayload.Ports)
    (ctx : Ctx) (w : World) :
  snd (TelegramParsePayload.execute p ctx w) = w /\
  (raises (TelegramParsePayload.execute p ctx w) <->
   truthy_non_update
     (payload_value (TelegramParsePayload.event_payload p) "update") = true).
Proof.
  destruct (parse_execute_cases p ctx w) as [[Hv [p' H]] | [Hv H]]; rewrite H; simpl.
  - split; [reflexivity|]. rewrite Hv. split; [intros [e He]; discriminate He | discriminate].
  - split; [reflexivity|]. rewrite Hv. split; [reflexivity | intros _; eexists; reflexivity].
Qed.

(* ===================================================================== *)
(** ** What a failed run leaves behind *)
(* ===================================================================== *)



(* ===================================================================== *)
(** ** Listeners that raise, and listeners of other events *)
(* ===================================================================== *)

(** X8.  An exception in a listener's sub-graph is not caught by
    [command_callback]: the loop ends there, the listeners after it get no
    payload and are not invoked, and the callback raises that exception. *)
Theorem raising_listener_ends_dispatch (cmd evt : string) (ctx : Ctx) (update : Update)
    (context : CallbackContext) (chat : Chat) (w : World) (events : Events)
    (before after : list Listener) (l : Listener) (e : Exn) :
  effective_chat update = Some chat ->
  ctx !! "events" = Some events ->
  events !! evt = Some (before ++ l :: after) ->
  Forall (fun l0 => body_raises l0 = None) before ->
  body_raises l = Some e ->
  command_callback cmd evt ctx update context w
  = (Raised e,
     add_events w
       (assign_and_invoke
          (make_payload cmd (message_text_of context) (chat_ident chat)
                        (user_id_value update) update)
          (before ++ [l]))).
Proof.
  intros Hchat H1 H2 Hb Hl.
  rewrite (command_callback_run cmd evt ctx update context chat w Hchat).
  rewrite (listeners_for_found ctx evt events _ H1 H2).
  destruct (dispatch_stops_at_raise
              (make_payload cmd (message_text_of context) (chat_ident chat)
                            (user_id_value update) update)
              before after l e Hb Hl) as [Ho He].
  cbv zeta. rewrite Ho, He. reflexivity.
Qed.

Lemma raising_listener_ends_dispatch_witness :
  command_callback "start" "on_start" crash_ctx start_update start_context idle_world
  = (Raised (ValueError "boom"),
     add_events idle_world
       [HostSetPayload greeter start_payload; HostDo greeter;
        HostSetPayload crashing start_payload; HostDo crashing]).
Proof.
  apply (raising_listener_ends_dispatch "start" "on_start" crash_ctx start_update
           start_context (mkChat 42) idle_world
           {[ "on_start" := [greeter; crashing; logger] ]}
           [greeter] [logger] crashing (ValueError "boom")).
  - reflexivity.
  - reflexivity.
  - reflexivity.
  - repeat constructor.
  - reflexivity.
Defined.

Lemma dispatch_events_invoked (payload : Dict) (ls : list Listener) (l : Listener) :
  In (HostDo l) (dispatch_events payload ls) ->
  In l ls /\ In (HostSetPayload l payload) (dispatch_events payload ls).
Proof.
  induction ls as [|l0 rest IH]; simpl; [tauto|].
  intros [H|[H|H]].
  - discriminate H.
  - injection H as ->. auto.
  - destruct (body_raises l0); [destruct H|].
    destruct (IH H). auto.
Qed.

Lemma dispatch_events_host_only (payload : Dict) (ls : list Listener) :
  List.filter is_lib_call (dispatch_events payload ls) = [].
Proof.
  induction ls as [|l0 rest IH]; simpl; [reflexivity|].
  destruct (body_raises l0); [reflexivity | exact IH].
Qed.

(** What [command_callback] adds to the trace, on any update. *)
Lemma command_callback_added (cmd evt : string) (ctx : Ctx) (update : Update)
    (context : CallbackContext) (w : World) (evs : list Event) :
  added w (snd (command_callback cmd evt ctx update context w)) evs ->
  (effective_chat update = None /\ evs = []) \/
  (exists chat,
      effective_chat update = Some chat /\
      evs = dispatch_events
              (make_payload cmd (message_text_of context) (chat_ident chat)
                            (user_id_value update) update)
              (listeners_for ctx evt)).
Proof.
  intros Hadd. destruct (effective_chat update) as [chat|] eqn:Hchat.
  - right. exists chat. split; [reflexivity|].
    rewrite (command_callback_run cmd evt ctx update context chat w Hchat) in Hadd.
    exact (added_unique _ _ _ _ Hadd (added_add_events w _)).
  - left. split; [reflexivity|].
    rewrite (command_callback_no_chat cmd evt ctx update context w Hchat) in Hadd.
    apply (added_unique w w); [exact Hadd|]. unfold added. symmetry. apply app_nil_r.
Qed.

(** X9.  [command_callback] touches only the listeners registered under its
    own event name: a listener that is invoked, or that gets a payload, is
    in the list stored under that name, and it is never invoked without
    having been given the payload.  The callback makes no library call, and
    for an update without an effective chat it touches no listener at
    all. *)
Theorem only_own_listeners_touched (cmd evt : string) (ctx : Ctx) (update : Update)
    (context : CallbackContext) (w : World) (evs : list Event) :
  added w (snd (command_callback cmd evt ctx update context w)) evs ->
  (forall l, In (HostDo l) evs ->
     In l (listeners_for ctx evt) /\ exists payload, In (HostSetPayload l payload) evs) /\
  (forall l payload, In (HostSetPayload l payload) evs -> In l (listeners_for ctx evt)) /\
  List.filter is_lib_call evs = [] /\
  (effective_chat update = None -> evs = []).
Proof.
  intros Hadd.
  destruct (command_callback_added cmd evt ctx update context w evs Hadd)
    as [[Hnone ->] | (chat & Hchat & ->)].
  - split; [|split; [|split]].
    + intros l [].
    + intros l payload [].
    + reflexivity.
    + reflexivity.
  - split; [|split; [|split]].
    + intros l H. apply dispatch_events_invoked in H as [Hl Hp]. eauto.
    + intros l payload H. apply dispatch_events_payload in H. tauto.
    + apply dispatch_events_host_only.
    + intros Hnone. rewrite Hnone in Hchat. discriminate Hchat.
Qed.

Lemma only_own_listeners_touched_witness :
  In crashing (listeners_for crash_ctx "on_start") /\
  exists payload,
    In (HostSetPayload crashing payload)
       (assign_and_invoke start_payload [greeter; crashing]).
Proof.
  apply (proj1 (only_own_listeners_touched "start" "on_start" crash_ctx start_update
                  start_context idle_world
                  (assign_and_invoke start_payload [greeter; crashing]) eq_refl)
           crashing).
  simpl. right. right. right. left. reflexivity.
Defined.

(* ===================================================================== *)
(** ** Listeners that unpack the payload and reply *)
(* ===================================================================== *)

Lemma parse_make_payload (p : TelegramParsePayload.Ports) (ctx : Ctx) (w : World)
    (cmd txt : string) (chat_id : Z) (user_id : PyVal) (update : Update) :
  TelegramParsePayload.event_payload p = Some (make_payload cmd txt chat_id user_id update) ->
  TelegramParsePayload.execute p ctx w
  = (Returned (TelegramParsePayload.mkPorts
                 (Some (make_payload cmd txt chat_id user_id update))
                 (VInt chat_id) user_id (VStr txt) (VUpdate update) (VStr cmd)
                 (VStr (first_name_of update))),
     w).
Proof.
  intros Hp. unfold TelegramParsePayload.execute. rewrite Hp.
  rewrite !or_else_empty_lookup. unfold payload_value.
  destruct (make_payload_lookup cmd txt chat_id user_id update) as (H1 & H2 & H3 & H4 & H5).
  cbv zeta in H1, H2, H3, H4, H5. rewrite H1, H2, H3, H4, H5.
  cbv [bind ret getattr update_attr]. simpl. unfold first_name_of.
  destruct (effective_user update) as [usr|]; simpl; [|reflexivity].
  rewrite or_else_string. destruct (first_name usr); reflexivity.
Qed.

(** X10.  Unpacking gives back what the callback packed: on a payload that
    [command_callback] handed to a listener, [TelegramParsePayload] returns
    without raising, with the chat id of the update's effective chat, the id
    of its effective user or None, the arguments joined with spaces, the
    update itself, the registered command, and the user's first name (the
    empty string without a user or a name). *)
Theorem unpack_recovers_command (cmd evt : string) (ctx : Ctx) (update : Update)
    (context : CallbackContext) (w : World) (evs : list Event) (l : Listener)
    (payload : Dict) (p : TelegramParsePayload.Ports) (ctx' : Ctx) (w' : World) :
  added w (snd (command_callback cmd evt ctx update context w)) evs ->
  In (HostSetPayload l payload) evs ->
  TelegramParsePayload.event_payload p = Some payload ->
  exists chat,
    effective_chat update = Some chat /\
    TelegramParsePayload.execute p ctx' w'
    = (Returned (unpacked payload cmd chat update context), w').
Proof.
  intros Hadd Hin Hp.
  destruct (command_callback_payload _ _ _ _ _ _ _ _ _ Hadd Hin) as (chat & Hchat & _ & ->).
  exists chat. split; [exact Hchat|].
  exact (parse_make_payload p ctx' w' _ _ _ _ _ Hp).
Qed.

Lemma unpack_recovers_command_witness :
  exists chat,
    effective_chat start_update = Some chat /\
    TelegramParsePayload.execute (parse_ports (Some start_payload)) ∅ idle_world
    = (Returned (unpacked start_payload "start" chat start_update start_context), idle_world).
Proof.
  apply (unpack_recovers_command "start" "on_start" start_ctx start_update start_context
           idle_world (assign_and_invoke start_payload [greeter; logger]) greeter
           start_payload (parse_ports (Some start_payload)) ∅ idle_world).
  - reflexivity.
  - simpl. left. reflexivity.
  - reflexivity.
Defined.

(** X11.  A reply wired to the payload of a command goes back where the
    command came from: with an application and a payload handed out by
    [command_callback], [TelegramReplyToMessageEvent] queues one task, and
    that task sends the reply text to the update's effective chat, quoting
    the update's effective message. *)
Theorem reply_answers_the_command (cmd evt : string) (ctx : Ctx) (update : Update)
    (context : CallbackContext) (w : World) (evs : list Event) (l : Listener)
    (payload : Dict) (p : TelegramReplyToMessageEvent.Ports) (r : AppRef)
    (original : Message) (ctx' : Ctx) (w1 w2 : World) :
  added w (snd (command_callback cmd evt ctx update context w)) evs ->
  In (HostSetPayload l payload) evs ->
  TelegramReplyToMessageEvent.application p = Some r ->
  TelegramReplyToMessageEvent.event_payload p = Some payload ->
  effective_message update = Some original ->
  exists chat,
    effective_chat update = Some chat /\
    TelegramReplyToMessageEvent.execute p ctx' w1
    = (Returned p, scheduled w1 (reply_task p r chat original)) /\
    snd (_send_reply (reply_task p r chat original) w2)
    = add_events w2
        [LibSendMessage
           (mkSend r (chat_ident chat) (TelegramReplyToMessageEvent.reply_text p)
                   (Some HTML) (Some (message_id original)))].
Proof.
  intros Hadd Hin Ha Hp Hm.
  destruct (command_callback_payload _ _ _ _ _ _ _ _ _ Hadd Hin) as (chat & Hchat & _ & ->).
  exists chat. split; [exact Hchat|]. split.
  - apply (reply_execute_valid p ctx' r _ update chat original Ha Hp); [|exact Hchat|exact Hm].
    apply make_payload_lookup.
  - rewrite send_reply_run. reflexivity.
Qed.

Lemma reply_answers_the_command_witness :
  exists chat,
    effective_chat start_update = Some chat /\
    TelegramReplyToMessageEvent.execute reply_ports ∅ idle_world
    = (Returned reply_ports, scheduled idle_world (reply_task reply_ports 0 chat start_message)) /\
    snd (_send_reply (reply_task reply_ports 0 chat start_message) offline_world)
    = add_events offline_world
        [LibSendMessage (mkSend 0 (chat_ident chat) (Some "<b>Hello</b>") (Some HTML)
                                (Some (message_id start_message)))].
Proof.
  apply (reply_answers_the_command "start" "on_start" start_ctx start_update start_context
           idle_world (assign_and_invoke start_payload [greeter; logger]) logger
           start_payload reply_ports 0 start_message ∅ idle_world offline_world).
  - reflexivity.
  - simpl. right. right. left. reflexivity.
  - reflexivity.
  - reflexivity.
  - reflexivity.
Defined.

(* ===================================================================== *)
(** ** Padding around the names *)
(* ===================================================================== *)




(* ===================================================================== *)
(** ** Handler components in a row *)
(* ===================================================================== *)

Lemma handler_node_returned (n n' : Node) (ctx : Ctx) (w w' : World) :
  attaches_handler n = true ->
  execute n ctx w = (Returned n', w') ->
  exists r h built,
    application_in n = Some r /\
    application_out n' = Some r /\
    handler_built n h /\
    w' = attached w r built h.
Proof.
  intros Hn Hex. destruct n as [p|p|p|p|p|p]; try discriminate Hn; unfold execute in Hex.
  - destruct (TelegramAddEchoHandler.application p) as [r|] eqn:Ha.
    + rewrite (add_echo_handler_ok p ctx w r Ha) in Hex. simpl in Hex.
      injection Hex as <- <-. exists r, echo_handler. eexists. simpl.
      repeat split; auto.
    + rewrite (add_echo_handler_no_application p ctx w Ha) in Hex. discriminate Hex.
  - destruct (TelegramAddCommandEvent.execute p ctx w) as [[p'|ex] w1] eqn:Hp;
      [|discriminate Hex].
    simpl in Hex. injection Hex as <- <-.
    destruct (add_command_event_returned p p' ctx w w1 Hp)
      as (r & c & e & Ha & Hc & He & Hcs & Hes & Hlib).
    rewrite (add_command_event_ok p ctx w r c e Ha Hc He Hcs Hes Hlib) in Hp.
    injection Hp as <- <-. exists r, (command_handler (strip c) (strip e)). eexists. simpl.
    repeat split; eauto.
Qed.

(** X13.  Wiring the application output of one handler component to the
    application input of the next keeps the same Application all along, and
    the handlers pile up on it in the order the components ran: after the
    two have executed, the application has its earlier handlers, then the
    first component's handler, then the second's. *)
Theorem handlers_accumulate_in_order (n1 n1' n2 n2' : Node) (ctx : Ctx) (w w1 w2 : World) :
  attaches_handler n1 = true ->
  attaches_handler n2 = true ->
  execute n1 ctx w = (Returned n1', w1) ->
  application_in n2 = application_out n1' ->
  execute n2 ctx w1 = (Returned n2', w2) ->
  exists r h1 h2,
    application_in n1 = Some r /\
    application_out n2' = Some r /\
    handler_built n1 h1 /\
    handler_built n2 h2 /\
    handlers_of w2 r = handlers_of w r ++ [h1; h2].
Proof.
  intros Hn1 Hn2 Hex1 Hwire Hex2.
  destruct (handler_node_returned n1 n1' ctx w w1 Hn1 Hex1)
    as (r & h1 & b1 & Hin1 & Hout1 & Hb1 & ->).
  destruct (handler_node_returned n2 n2' ctx _ w2 Hn2 Hex2)
    as (r2 & h2 & b2 & Hin2 & Hout2 & Hb2 & ->).
  rewrite Hwire, Hout1 in Hin2. injection Hin2 as <-.
  exists r, h1, h2. repeat split; auto.
  rewrite !handlers_of_attached, <- app_assoc. reflexivity.
Qed.

Lemma handlers_accumulate_in_order_witness :
  exists r h1 h2,
    application_in (AddCommandEvent start_ports) = Some r /\
    application_out (AddEchoHandler (TelegramAddEchoHandler.mkPorts (Some 0) (Some 0)))
    = Some r /\
    handler_built (AddCommandEvent start_ports) h1 /\
    handler_built (AddEchoHandler echo_ports) h2 /\
    handlers_of
      (snd (execute (AddEchoHandler echo_ports) ∅
              (snd (execute (AddCommandEvent start_ports) ∅ idle_world)))) r
    = handlers_of idle_world r ++ [h1; h2].
Proof.
  apply (handlers_accumulate_in_order
           (AddCommandEvent start_ports)
           (AddCommandEvent (TelegramAddCommandEvent.mkPorts (Some 0) (Some " start ")
                               (Some "on_start ") (Some 0)))
           (AddEchoHandler echo_ports)
           (AddEchoHandler (TelegramAddEchoHandler.mkPorts (Some 0) (Some 0)))
           ∅ idle_world
           (snd (execute (AddCommandEvent start_ports) ∅ idle_world))
           (snd (execute (AddEchoHandler echo_ports) ∅
                   (snd (execute (AddCommandEvent start_ports) ∅ idle_world))))).
  - reflexivity.
  - reflexivity.
  - reflexivity.
  - reflexivity.
  - reflexivity.
Defined.

(* ===================================================================== *)
(** ** The echo callback on its own *)
(* ===================================================================== *)

(** X14.  The echo callback does not look at what kind of message it is
    given: called on an update that the library's COMMAND filter accepts,
    it echoes the text like any other.  Commands stay unanswered only
    because the handler's filter, TEXT and not COMMAND, does not pass them
    on to the callback. *)
Theorem echo_callback_does_not_filter (update : Update) (context : CallbackContext)
    (ctx : Ctx) (w : World) (t : string) (chat : Chat) :
  incoming_text update = Some t ->
  command_filter (library w) update = true ->
  effective_chat update = Some chat ->
  snd (echo update context w)
  = add_events w [LibSendMessage (mkSend (bot context) (chat_ident chat) (Some t) None None)] /\
  snd (handle_message (FAnd TEXT (FNot COMMAND)) EchoClosure ctx update context w) = w.
Proof.
  intros Ht Hcommand Hchat. split.
  - rewrite (echo_with_text update context w t chat Ht Hchat). reflexivity.
  - unfold handle_message. simpl. rewrite Hcommand, andb_false_r. reflexivity.
Qed.

Lemma echo_callback_does_not_filter_witness :
  snd (echo start_update start_context idle_world)
  = add_events idle_world
      [LibSendMessage (mkSend 0 42 (Some "/start now please") None None)] /\
  snd (handle_message (FAnd TEXT (FNot COMMAND)) EchoClosure ∅ start_update start_context
         idle_world) = idle_world.
Proof.
  apply (echo_callback_does_not_filter start_update start_context ∅ idle_world
           "/start now please" (mkChat 42)).
  - reflexivity.
  - reflexivity.
  - reflexivity.
Defined.
